(** * skillswap: server/routes.ts

    A shallow embedding of the three stateful parts of [registerRoutes]:

    - the in-memory session registry with the [authenticate] middleware and
      the auto-login middleware that precedes every guarded route;
    - the WebSocket [message] handler that fans an inbound frame out to the
      other clients of the server;
    - the [POST /api/content/upload] route: multer's gate, the handler, and
      the content records it creates and updates;
    - the register and login routes, the skill form with [POST /api/skills],
      the two routes of the current user and the names of stored files.

    Synchronous code is written as functions in a small state-and-exception
    monad.  The asynchronous upload handler is a task machine with one state
    per suspension point ([await]), so that several uploads can be
    interleaved. *)

From Stdlib Require Import Ascii.
From stdpp Require Import gmap strings list pretty.

Open Scope string_scope.

(* ===================================================================== *)
(** ** Session registry (routes.ts l.41, l.156-178)                      *)
(* ===================================================================== *)

(** [const sessions: Record<string, { userId: number, username: string }> = {}] *)
Record Session := mkSession { userId : nat; username : string }.

(** A row of the user table, as far as routes.ts reads it. *)
Record User := mkUser { user_id : nat; user_name : string }.

(** [sessions] is created by the object literal [{}], so a property read
    [sessions[key]] that finds no own property continues in
    [Object.prototype].  These are its property names. *)
Definition object_prototype_keys : list string :=
  [ "constructor"; "__defineGetter__"; "__defineSetter__"; "hasOwnProperty";
    "__lookupGetter__"; "__lookupSetter__"; "isPrototypeOf";
    "propertyIsEnumerable"; "toString"; "valueOf"; "__proto__";
    "toLocaleString" ].

(** The value of the expression [sessions[key]]. *)
Inductive prop_read :=
| OwnSession (s : Session)   (* an entry written by register, login or auto-login *)
| InheritedMember            (* a member of Object.prototype: an object, truthy *)
| Undefined.

Definition sessions_get (sessions : gmap string Session) (key : string) : prop_read :=
  match sessions !! key with
  | Some s => OwnSession s
  | None => if bool_decide (key ∈ object_prototype_keys)
            then InheritedMember else Undefined
  end.

Definition truthy_read (r : prop_read) : bool :=
  match r with Undefined => false | _ => true end.

(** [sessions[key].userId] and [sessions[key].username]; [None] is
    [undefined] (a member of Object.prototype has neither property). *)
Definition read_userId (r : prop_read) : option nat :=
  match r with OwnSession s => Some (userId s) | _ => None end.

Definition read_username (r : prop_read) : option string :=
  match r with OwnSession s => Some (username s) | _ => None end.

(** [req.user], set by [authenticate]. *)
Record ReqUser := mkReqUser { ru_id : option nat; ru_username : option string }.

(** What a middleware does with a request: answer it, or call [next()]. *)
Inductive mw_result (A : Type) :=
| Respond (status : nat) (message : string)
| Next (a : A).
Arguments Respond {A} status message.
Arguments Next {A} a.

(** [!req.headers.authorization]: the header is absent or the empty string. *)
Definition header_falsy (h : option string) : bool :=
  match h with
  | None => true
  | Some s => bool_decide (s = "")
  end.

(** [authenticate] (l.156-165). *)
Definition authenticate (sessions : gmap string Session)
    (authorization : option string) : mw_result ReqUser :=
  match authorization with
  | None => Respond 401 "Unauthorized"
  | Some sessionId =>
      if bool_decide (sessionId = "") || negb (truthy_read (sessions_get sessions sessionId))
      then Respond 401 "Unauthorized"
      else Next {| ru_id := read_userId (sessions_get sessions sessionId);
                   ru_username := read_username (sessions_get sessions sessionId) |}
  end.

(** [Math.random().toString(36).substring(2, 15)]; [r36] is the text
    [Math.random().toString(36)], over the digits 0-9a-z after its "0.". *)
Definition new_session_id (r36 : string) : string := String.substring 2 13 r36.

(** The auto-login middleware (l.168-178), registered before every guarded
    route.  [users] is the result of [storage.getAllUsers()].  It returns the
    header the rest of the chain sees and the session registry. *)
Definition auto_login (users : list User) (r36 : string)
    (authorization : option string) (sessions : gmap string Session)
  : option string * gmap string Session :=
  if header_falsy authorization then
    match users with
    | u :: _ =>
        let sessionId := new_session_id r36 in
        (Some sessionId,
         <[sessionId := mkSession (user_id u) (user_name u)]> sessions)
    | [] => (authorization, sessions)
    end
  else (authorization, sessions).

(** A guarded route: the auto-login middleware, then [authenticate]. *)
Definition guard (users : list User) (r36 : string)
    (authorization : option string) (sessions : gmap string Session)
  : mw_result ReqUser * gmap string Session :=
  let '(h, sessions') := auto_login users r36 authorization sessions in
  (authenticate sessions' h, sessions').

(* ===================================================================== *)
(** ** Real-time channel (routes.ts l.54-95)                             *)
(* ===================================================================== *)

#[local] Set Warnings "-register-all".

(** A value produced by [JSON.parse].  A number is kept as the text
    [String(n)] gives for it, which is all the handler can observe of it;
    the fields of an object are its own properties, each name once. *)
Inductive json :=
| JNull
| JBool (b : bool)
| JNum (repr : string)
| JStr (s : string)
| JArr (items : list json)
| JObj (fields : list (string * json)).

(** A JavaScript value read from the payload; [None] is [undefined]. *)
Definition jsval := option json.

Fixpoint assoc_get (k : string) (fields : list (string * json)) : jsval :=
  match fields with
  | [] => None
  | (k', v) :: rest => if bool_decide (k = k') then Some v else assoc_get k rest
  end.

(** [data.name] for the three names the handler reads ([type], [sessionId],
    [content]): a [TypeError] on [null], the own property on an object, and
    [undefined] on arrays and primitives, whose prototypes have none of
    the three. *)
Definition get_prop (data : json) (name : string) : string + jsval :=
  match data with
  | JNull => inl ("TypeError: Cannot read properties of null (reading '" ++ name ++ "')")
  | JObj fields => inr (assoc_get name fields)
  | _ => inr None
  end.

(** [v === "message"] *)
Definition strict_eq_string (v : jsval) (s : string) : bool :=
  match v with
  | Some (JStr s') => bool_decide (s' = s)
  | _ => false
  end.

(** ToBoolean *)
Definition truthy (v : jsval) : bool :=
  match v with
  | None | Some JNull => false
  | Some (JBool b) => b
  | Some (JNum r) => negb (bool_decide (r = "0"))
  | Some (JStr s) => negb (bool_decide (s = ""))
  | Some (JArr _) | Some (JObj _) => true
  end.

Definition join_comma (parts : list string) : string :=
  match parts with
  | [] => ""
  | p :: ps => fold_left (fun acc q => acc ++ "," ++ q) ps p
  end.

(** The evaluation of an expression: its value, or the error it throws. *)
#[global] Instance js_ret : MRet (sum string) := fun A (a : A) => inr a.

#[global] Instance js_bind : MBind (sum string) :=
  fun A B (k : A -> string + B) (m : string + A) =>
    match m with
    | inl e => inl e
    | inr a => k a
    end.

(** The converted elements of an array, up to the first conversion that
    throws. *)
Fixpoint join_keys (parts : list (string + string)) : string + list string :=
  match parts with
  | [] => inr []
  | inl e :: _ => inl e
  | inr p :: rest =>
      match join_keys rest with
      | inl e => inl e
      | inr ps => inr (p :: ps)
      end
  end.

(** The property key a value is converted to in [sessions[v]]
    (ToPropertyKey, which on these values is ToString).  An array joins its
    converted elements, [null] elements as "".  An object is converted by
    its [toString] method: [Object.prototype.toString] gives
    "[object Object]", but an own property [toString] hides it, and since no
    value of [JSON.parse] is callable and [Object.prototype.valueOf] returns
    the object itself, the conversion then throws a [TypeError]. *)
Fixpoint to_key (v : json) : string + string :=
  match v with
  | JNull => inr "null"
  | JBool true => inr "true"
  | JBool false => inr "false"
  | JNum r => inr r
  | JStr s => inr s
  | JArr items =>
      match join_keys (map (fun x => match x with
                                     | JNull => inr ""
                                     | _ => to_key x
                                     end) items) with
      | inl e => inl e
      | inr parts => inr (join_comma parts)
      end
  | JObj fields =>
      match assoc_get "toString" fields with
      | Some _ => inl "TypeError: Cannot convert object to primitive value"
      | None => inr "[object Object]"
      end
  end.

(** The values that cannot be converted to a property key: an object with
    an own property [toString], or an array that holds such a value. *)
Fixpoint unprintable (v : json) : bool :=
  match v with
  | JObj fields =>
      match assoc_get "toString" fields with
      | Some _ => true
      | None => false
      end
  | JArr items => existsb unprintable items
  | _ => false
  end.

(** The [senderId] of an outbound frame: a user id, the text "system", or
    [undefined] (the key is then dropped by [JSON.stringify]). *)
Inductive sender_id :=
| SenderUser (id : nat)
| SenderSystem
| SenderUndefined.

(** Outbound frames, before [JSON.stringify]. *)
Inductive frame :=
| SystemFrame (content : string) (timestamp : string)
| MessageFrame (senderId : sender_id) (senderName : option string)
               (content : jsval) (timestamp : string).

(** [sessions[data.sessionId]]: the key conversion, then the read. *)
Definition sessions_at (sessions : gmap string Session) (sid : jsval)
  : string + prop_read :=
  match sid with
  | Some v => key ← to_key v ; mret (sessions_get sessions key)
  | None => mret (sessions_get sessions "undefined")
  end.

(** [data.sessionId && sessions[data.sessionId]], as a condition: the
    right operand is evaluated only when the left one is truthy. *)
Definition sender_known (sessions : gmap string Session) (sid : jsval)
  : string + bool :=
  if truthy sid
  then r ← sessions_at sessions sid ; mret (truthy_read r)
  else mret false.

(** [... ? sessions[data.sessionId].userId : "system"] (l.75) *)
Definition sender_of (sessions : gmap string Session) (sid : jsval)
  : string + sender_id :=
  known ← sender_known sessions sid ;
  if known : bool then
    r ← sessions_at sessions sid ;
    mret (match read_userId r with
          | Some n => SenderUser n
          | None => SenderUndefined
          end)
  else mret SenderSystem.

(** [... ? sessions[data.sessionId].username : "System"] (l.76) *)
Definition sender_name_of (sessions : gmap string Session) (sid : jsval)
  : string + option string :=
  known ← sender_known sessions sid ;
  if known : bool then
    r ← sessions_at sessions sid ;
    mret (read_username r)
  else mret (Some "System").

(** The session ids that can stand in [sessions[data.sessionId]]: the
    falsy ones, which are never used as a key, and the values that hold no
    object with an own property [toString]. *)
Definition usable_session_id (sid : jsval) : bool :=
  match sid with
  | Some v => negb (truthy sid) || negb (unprintable v)
  | None => true
  end.

(** The server side of the channel.  A socket is named by a number;
    [clients] is [wss.clients] in insertion order, [send_throws] the sockets
    on which [send] raises, [outbox] what was handed to each socket,
    [date_calls] how often the clock was read. *)
Record WsState := mkWs {
  clients : list nat;
  send_throws : gset nat;
  outbox : gmap nat (list frame);
  console : list string;
  date_calls : nat
}.

Definition frames_of (st : WsState) (client : nat) : list frame :=
  default [] (outbox st !! client).

(** Computations of the handler: a state transformer that returns a value
    or a thrown error. *)
Definition WsM (A : Type) : Type := WsState -> (string + A) * WsState.

#[global] Instance ws_ret : MRet WsM := fun A (a : A) st => (inr a, st).

#[global] Instance ws_bind : MBind WsM := fun A B (k : A -> WsM B) (m : WsM A) st =>
  match m st with
  | (inl e, st') => (inl e, st')
  | (inr a, st') => k a st'
  end.

Definition ws_throw {A} (e : string) : WsM A := fun st => (inl e, st).

Definition ws_lift {A} (r : string + A) : WsM A := fun st => (r, st).

Definition try_catch {A} (body : WsM A) (handler : string -> WsM A) : WsM A :=
  fun st =>
    match body st with
    | (inl e, st') => handler e st'
    | (inr a, st') => (inr a, st')
    end.

(** [console.log] and [console.error] *)
Definition console_write (line : string) : WsM unit :=
  fun st => (inr tt, mkWs (clients st) (send_throws st) (outbox st)
                          ((console st ++ [line])%list) (date_calls st)).

(** [new Date().toISOString()]: the next reading of the wall clock. *)
Definition new_Date (clock : nat -> string) : WsM string :=
  fun st => (inr (clock (date_calls st)),
             mkWs (clients st) (send_throws st) (outbox st)
                  (console st) (S (date_calls st))).

(** [client.send(frame)] *)
Definition ws_send (client : nat) (f : frame) : WsM unit :=
  fun st =>
    if bool_decide (client ∈ send_throws st)
    then (inl "Error: WebSocket is not open", st)
    else (inr tt, mkWs (clients st) (send_throws st)
                       (<[client := (frames_of st client ++ [f])%list]> (outbox st))
                       (console st) (date_calls st)).

(** [set.forEach(callback)]: an exception of the callback ends the loop. *)
Fixpoint forEach (l : list nat) (callback : nat -> WsM unit) : WsM unit :=
  match l with
  | [] => mret tt
  | x :: rest => callback x ;; forEach rest callback
  end.

Definition clients_forEach (callback : nat -> WsM unit) : WsM unit :=
  fun st => forEach (clients st) callback st.

(** [JSON.parse(message.toString())]: [None] when the text is not JSON. *)
Definition JSON_parse (parsed : option json) : WsM json :=
  match parsed with
  | Some v => mret v
  | None => ws_throw "SyntaxError: Unexpected token"
  end.

(** The members of the frame literal that are read from the payload
    (l.75-77), in the order they are evaluated: [senderId], [senderName],
    [content].  An error is the [TypeError] of a key conversion. *)
Definition frame_members (sessions : gmap string Session) (data : json)
  : string + (sender_id * option string * jsval) :=
  sid ← get_prop data "sessionId" ;
  senderId ← sender_of sessions sid ;
  senderName ← sender_name_of sessions sid ;
  content ← get_prop data "content" ;
  mret (senderId, senderName, content).

Definition frame_of_members (members : sender_id * option string * jsval)
    (timestamp : string) : frame :=
  let '(senderId, senderName, content) := members in
  MessageFrame senderId senderName content timestamp.

(** The frame built for one recipient (l.73-79), given the clock reading
    of l.78. *)
Definition broadcast_frame (sessions : gmap string Session) (data : json)
    (timestamp : string) : string + frame :=
  members ← frame_members sessions data ;
  mret (frame_of_members members timestamp).

(** The callback given to [wss.clients.forEach] (l.71-81).  The clock is
    read after the members before it in the literal have been evaluated, so
    not at all when one of them throws. *)
Definition broadcast_to (sessions : gmap string Session) (clock : nat -> string)
    (ws : nat) (data : json) (client : nat) : WsM unit :=
  if bool_decide (client ≠ ws) then
    members ← ws_lift (frame_members sessions data) ;
    timestamp ← new_Date clock ;
    ws_send client (frame_of_members members timestamp)
  else mret tt.

(** The body of the [try] block (l.66-82). *)
Definition on_message_body (sessions : gmap string Session) (clock : nat -> string)
    (ws : nat) (text : string) (parsed : option json) : WsM unit :=
  console_write ("Received message: " ++ text) ;;
  data ← JSON_parse parsed ;
  ty ← ws_lift (get_prop data "type") ;
  if strict_eq_string ty "message"
  then clients_forEach (broadcast_to sessions clock ws data)
  else mret tt.

(** [ws.on("message", ...)] (l.64-86).  [text] is [message.toString()] and
    [parsed] what [JSON.parse] makes of it. *)
Definition on_message (sessions : gmap string Session) (clock : nat -> string)
    (ws : nat) (text : string) (parsed : option json) : WsM unit :=
  try_catch (on_message_body sessions clock ws text parsed)
            (fun error => console_write ("WebSocket message error: " ++ error)).

(** [wss.clients.add(ws)], done by the server before it emits [connection]. *)
Definition clients_add (ws : nat) : WsM unit :=
  fun st => (inr tt, mkWs (if bool_decide (ws ∈ clients st) then clients st
                           else (clients st ++ [ws])%list)
                          (send_throws st) (outbox st) (console st) (date_calls st)).

(** [wss.on("connection", ...)] (l.54-62): the socket is already in
    [wss.clients] when the callback runs; the welcome frame is sent outside
    any [try]. *)
Definition on_connection (clock : nat -> string) (ws : nat) : WsM unit :=
  clients_add ws ;;
  console_write "New WebSocket connection established" ;;
  timestamp ← new_Date clock ;
  ws_send ws (SystemFrame "Connected to chat server" timestamp).

(** Two states of the channel with the same sockets: none was added or
    removed, none changed its readiness. *)
Definition same_sockets (st st' : WsState) : Prop :=
  clients st' = clients st /\ send_throws st' = send_throws st.

(** An inbound payload is a message event when it parses to a value whose
    [type] is the text "message"; anything else is malformed: text that is
    not JSON, [null], or a value of another kind. *)
Definition well_formed_message (parsed : option json) : bool :=
  match parsed with
  | Some data =>
      match get_prop data "type" with
      | inr ty => strict_eq_string ty "message"
      | inl _ => false
      end
  | None => false
  end.

(** [data.sessionId] and [data.content] of an inbound payload;
    [undefined] when the payload has no such property. *)
Definition event_session_id (parsed : option json) : jsval :=
  match parsed with
  | Some data =>
      match get_prop data "sessionId" with
      | inr v => v
      | inl _ => None
      end
  | None => None
  end.

Definition event_content (parsed : option json) : jsval :=
  match parsed with
  | Some data =>
      match get_prop data "content" with
      | inr v => v
      | inl _ => None
      end
  | None => None
  end.

(* ===================================================================== *)
(** ** Content records and their store                                   *)
(* ===================================================================== *)

Inductive Status := processing | complete | failed.

Inductive FileType := pdf | video.

#[global] Instance Status_eq_dec : EqDecision Status.
Proof. solve_decision. Defined.

#[global] Instance FileType_eq_dec : EqDecision FileType.
Proof. solve_decision. Defined.

(** The argument of [storage.createContent] (l.440-448).  [ins_userId] is
    [req.user.id], which [authenticate] may have left [undefined]. *)
Record InsertContent := mkInsert {
  ins_userId : option nat;
  ins_filename : string;
  ins_type : FileType;
  ins_filePath : string;
  ins_fileSize : N;
  ins_status : Status;
  ins_summary : option string
}.

(** A content record; [c_summary = None] is [summary: null]. *)
Record Content := mkContent {
  c_id : nat;
  c_userId : option nat;
  c_filename : string;
  c_type : FileType;
  c_filePath : string;
  c_fileSize : N;
  c_status : Status;
  c_summary : option string
}.

(** The argument of [storage.updateContent]: the fields it names. *)
Record ContentPatch := mkPatch {
  p_summary : option string;
  p_status : option Status
}.

Definition terminal (s : Status) : bool :=
  match s with processing => false | complete | failed => true end.

(** Modelled from the spec: [storage] (./storage) is not part of routes.ts.
    The spec describes it as a persistent record store exposing create, read
    and update keyed by numeric id, mutated only through create and update
    calls, with last-writer-wins semantics per field.  Ids come from a
    counter; a call does not fail; [updateContent] stores a new record value
    and leaves the value [createContent] returned as it was. *)
Record Storage := mkStorage {
  contents : gmap nat Content;
  contentIdCounter : nat
}.

Definition content_of_insert (id : nat) (ins : InsertContent) : Content :=
  {| c_id := id; c_userId := ins_userId ins; c_filename := ins_filename ins;
     c_type := ins_type ins; c_filePath := ins_filePath ins;
     c_fileSize := ins_fileSize ins; c_status := ins_status ins;
     c_summary := ins_summary ins |}.

Definition createContent (ins : InsertContent) (st : Storage) : Content * Storage :=
  let id := contentIdCounter st in
  let content := content_of_insert id ins in
  (content, {| contents := <[id := content]> (contents st);
               contentIdCounter := S id |}).

(** [{ ...content, ...data }] *)
Definition apply_patch (data : ContentPatch) (content : Content) : Content :=
  {| c_id := c_id content; c_userId := c_userId content;
     c_filename := c_filename content; c_type := c_type content;
     c_filePath := c_filePath content; c_fileSize := c_fileSize content;
     c_status := default (c_status content) (p_status data);
     c_summary := match p_summary data with
                  | Some s => Some s
                  | None => c_summary content
                  end |}.

Definition updateContent (id : nat) (data : ContentPatch) (st : Storage)
  : option Content * Storage :=
  match contents st !! id with
  | Some content =>
      let updated := apply_patch data content in
      (Some updated, {| contents := <[id := updated]> (contents st);
                        contentIdCounter := contentIdCounter st |})
  | None => (None, st)
  end.

(** Records sit under their own id, below the counter. *)
Definition storage_wf (st : Storage) : Prop :=
  forall id content, contents st !! id = Some content ->
    c_id content = id /\ id < contentIdCounter st.

(* ===================================================================== *)
(** ** Upload route (routes.ts l.409-479)                                *)
(* ===================================================================== *)

(** The file part of a multipart request, as multer presents it:
    [originalname], [mimetype], the [path] multer's disk storage chose and
    the [size] in bytes. *)
Record UploadedFile := mkFile {
  originalname : string;
  mimetype : string;
  path : string;
  size : N
}.

Definition allowedMimes : list string := ["application/pdf"; "video/mp4"].

(** [limits: { fileSize: 100 * 1024 * 1024 }] *)
Definition fileSizeLimit : N := 100 * 1024 * 1024.

(** [fileFilter] (l.422-429): [true] is [cb(null, true)], [false] is
    [cb(new Error(...))]. *)
Definition fileFilter (file_mimetype : string) : bool :=
  bool_decide (file_mimetype ∈ allowedMimes).

(** [upload.single("file")]: multer asks [fileFilter] when the part starts
    and gives up with LIMIT_FILE_SIZE when the part grows past the limit.
    Either error goes to [next(err)]; otherwise [req.file] is set. *)
Inductive multer_result :=
| MulterError (message : string)
| MulterNext (file : option UploadedFile).

Definition upload_single (part : option UploadedFile) : multer_result :=
  match part with
  | None => MulterNext None
  | Some f =>
      if fileFilter (mimetype f) then
        if (fileSizeLimit <? size f)%N then MulterError "File too large"
        else MulterNext (Some f)
      else MulterError "Invalid file type. Only PDF and MP4 files are allowed."
  end.

(** The body of an HTTP response. *)
Inductive Body :=
| BodyMessage (message : string)
| BodyContent (content : Content).

(** Modelled from the spec: routes.ts registers no error-handling
    middleware, so the answer to a request that multer ended with
    [next(err)] is made outside this file.  The spec has such an upload
    rejected with a client error before a record is created. *)
Definition upload_error_response (message : string) : nat * Body :=
  (400, BodyMessage message).

(** The result of [summarizeDocument(path)] (./services/openai, outside
    this file): the summary text, or a thrown error. *)
Inductive Summarized :=
| SummaryText (text : string)
| SummaryError (error : string).

(** What can be observed of the route, in order. *)
Inductive Event :=
| EvCreate (content : Content)
| EvSummarize (file_path : string)
| EvUpdate (id : nat) (data : ContentPatch)
| EvLog (line : string)
| EvRespond (status : nat) (body : Body).

(** The server as the upload route sees it: the store and the events so
    far, each with the number of the request it belongs to. *)
Record World := mkWorld {
  storage : Storage;
  trace : list (nat * Event)
}.

(** Where the handler (l.432-479) stands.  Every [await] is one state: the
    awaited call has been made when the state is left.  [AtCatch] is the
    inner [catch] (l.459), entered when [summarizeDocument] throws.  The
    outer [catch] (l.475-478) is entered only when a call of the store
    rejects, which the store above never does, so no state stands for it. *)
Inductive Pc :=
| AtStart                                           (* l.433, before createContent *)
| AtSummarize (file : UploadedFile) (content : Content)     (* l.454 *)
| AtUpdateComplete (content : Content) (summary : string)   (* l.455 *)
| AtCatch (content : Content) (error : string)      (* l.459-463 *)
| AtUpdateVideo (content : Content)                 (* l.468 *)
| AtRespond (content : Content)                     (* l.474 *)
| Finished (created : option Content).

(** One run of the handler: [req.user], [req.file], what the summarizer
    will answer if asked, and the current state. *)
Record Task := mkTask {
  t_user : ReqUser;
  t_file : option UploadedFile;
  t_summarizer : Summarized;
  t_pc : Pc
}.

Definition video_placeholder : string :=
  "Video summary is not available in this demo version.".

Definition emit (rid : nat) (e : Event) (w : World) : World :=
  {| storage := storage w; trace := (trace w ++ [(rid, e)])%list |}.

Definition set_storage (st : Storage) (w : World) : World :=
  {| storage := st; trace := trace w |}.

Definition at_pc (t : Task) (pc : Pc) : Task :=
  {| t_user := t_user t; t_file := t_file t;
     t_summarizer := t_summarizer t; t_pc := pc |}.

(** The patches the handler writes: [{ summary, status: "complete" }]
    (l.455-458 and l.468-471) and [{ status: "failed" }] (l.461-463). *)
Definition patch_complete (summary : string) : ContentPatch :=
  {| p_summary := Some summary; p_status := Some complete |}.

Definition patch_failed : ContentPatch :=
  {| p_summary := None; p_status := Some failed |}.

(** [req.file.mimetype === "application/pdf" ? "pdf" : "video"] (l.438) *)
Definition fileType_of (file : UploadedFile) : FileType :=
  if bool_decide (mimetype file = "application/pdf") then pdf else video.

(** The record handed to [storage.createContent] (l.440-448). *)
Definition upload_insert (user : ReqUser) (file : UploadedFile) : InsertContent :=
  {| ins_userId := ru_id user;
     ins_filename := originalname file;
     ins_type := fileType_of file;
     ins_filePath := path file;
     ins_fileSize := size file;
     ins_status := processing;
     ins_summary := None |}.

(** [await storage.updateContent(content.id, data)] *)
Definition do_update (rid : nat) (content : Content) (data : ContentPatch)
    (w : World) : World :=
  emit rid (EvUpdate (c_id content) data)
       (set_storage (snd (updateContent (c_id content) data (storage w))) w).

(** One step of request [rid]: from one suspension point to the next. *)
Definition task_step (rid : nat) (t : Task) (w : World) : Task * World :=
  match t_pc t with
  | AtStart =>
      match t_file t with
      | None =>
          (at_pc t (Finished None),
           emit rid (EvRespond 400 (BodyMessage "No file uploaded")) w)
      | Some file =>
          let '(content, st) :=
            createContent (upload_insert (t_user t) file) (storage w) in
          (at_pc t (match fileType_of file with
                    | pdf => AtSummarize file content
                    | video => AtUpdateVideo content
                    end),
           emit rid (EvCreate content) (set_storage st w))
      end
  | AtSummarize file content =>
      let w' := emit rid (EvSummarize (path file)) w in
      match t_summarizer t with
      | SummaryText summary => (at_pc t (AtUpdateComplete content summary), w')
      | SummaryError error => (at_pc t (AtCatch content error), w')
      end
  | AtUpdateComplete content summary =>
      (at_pc t (AtRespond content),
       do_update rid content (patch_complete summary) w)
  | AtCatch content error =>
      (at_pc t (AtRespond content),
       do_update rid content patch_failed
                 (emit rid (EvLog ("Error summarizing PDF: " ++ error)) w))
  | AtUpdateVideo content =>
      (at_pc t (AtRespond content),
       do_update rid content (patch_complete video_placeholder) w)
  | AtRespond content =>
      (at_pc t (Finished (Some content)),
       emit rid (EvRespond 201 (BodyContent content)) w)
  | Finished _ => (t, w)
  end.

(** The handler run without interruption: from [AtStart] it needs at most
    four steps (create, summarize, update, respond). *)
Definition run_task (rid : nat) (t : Task) (w : World) : Task * World :=
  Nat.iter 4 (fun tw => task_step rid (fst tw) (snd tw)) (t, w).

(** A request to [POST /api/content/upload]. *)
Record UploadRequest := mkUpload {
  authorization : option string;
  file_part : option UploadedFile
}.

(** The middleware chain in front of the handler: auto-login,
    [authenticate], [upload.single("file")].  Either the request is answered
    there, or the handler is entered with [req.user] and [req.file] set. *)
Definition upload_route (users : list User) (r36 : string)
    (sessions : gmap string Session) (req : UploadRequest)
  : (nat * Body + ReqUser * option UploadedFile) * gmap string Session :=
  let '(auth, sessions') := guard users r36 (authorization req) sessions in
  match auth with
  | Respond status message => (inl (status, BodyMessage message), sessions')
  | Next user =>
      match upload_single (file_part req) with
      | MulterError message => (inl (upload_error_response message), sessions')
      | MulterNext file => (inr (user, file), sessions')
      end
  end.

(** One upload request served from arrival to response; [summarizer] is
    what [summarizeDocument] answers if it is called. *)
Definition handle_upload (users : list User) (r36 : string)
    (sessions : gmap string Session) (req : UploadRequest)
    (summarizer : Summarized) (rid : nat) (w : World) : World :=
  match fst (upload_route users r36 sessions req) with
  | inl (status, body) => emit rid (EvRespond status body) w
  | inr (user, file) => snd (run_task rid (mkTask user file summarizer AtStart) w)
  end.

(** The events a run added to the trace. *)
Definition events_since (w w' : World) : list (nat * Event) :=
  drop (length (trace w)) (trace w').



(** The response sent to request [rid], if any, and the position of an
    event in the trace. *)
Definition is_response (rid : nat) (e : nat * Event) : bool :=
  match e with
  | (rid', EvRespond _ _) => bool_decide (rid' = rid)
  | _ => false
  end.

Definition is_terminal_update (id : nat) (e : nat * Event) : bool :=
  match snd e with
  | EvUpdate id' data =>
      bool_decide (id' = id) && from_option terminal false (p_status data)
  | _ => false
  end.

Fixpoint position {A} (p : A -> bool) (l : list A) : option nat :=
  match l with
  | [] => None
  | x :: rest => if p x then Some 0 else S <$> position p rest
  end.


(** Several uploads in flight.  A request that passed the middleware chain
    joins as a task at [AtStart]; its number is its place in [tasks].  Any
    task may take its next step at any time. *)
Record System := mkSystem {
  world : World;
  tasks : list Task
}.

Inductive sys_step (s : System) : System -> Prop :=
| step_accept (t : Task) :
    t_pc t = AtStart ->
    sys_step s {| world := world s; tasks := (tasks s ++ [t])%list |}
| step_run (rid : nat) (t : Task) :
    tasks s !! rid = Some t ->
    sys_step s {| world := snd (task_step rid t (world s));
                  tasks := <[rid := fst (task_step rid t (world s))]> (tasks s) |}.

Inductive reachable : System -> Prop :=
| reach_init (st : Storage) :
    storage_wf st ->
    reachable {| world := {| storage := st; trace := [] |}; tasks := [] |}
| reach_step (s s' : System) :
    reachable s -> sys_step s s' -> reachable s'.

(** The record an upload by [user] of [file] creates in world [w]. *)
Definition created_content (user : ReqUser) (file : UploadedFile) (w : World) : Content :=
  content_of_insert (contentIdCounter (storage w)) (upload_insert user file).

(** The store after record [c] was created and patched with [data]. *)
Definition storage_after (c : Content) (data : ContentPatch) (st : Storage) : Storage :=
  {| contents := <[c_id c := apply_patch data c]> (<[c_id c := c]> (contents st));
     contentIdCounter := S (contentIdCounter st) |}.

(** The record a task holds in its local [content], once it has one. *)
Definition content_of (t : Task) : option Content :=
  match t_pc t with
  | AtStart | Finished None => None
  | AtSummarize _ c | AtUpdateComplete c _ | AtCatch c _
  | AtUpdateVideo c | AtRespond c | Finished (Some c) => Some c
  end.








(** Moves of the system as functions: request [t] joins; task [rid] takes
    its next step. *)
Definition accept (t : Task) (s : System) : System :=
  {| world := world s; tasks := (tasks s ++ [t])%list |}.

Definition run_step (rid : nat) (s : System) : System :=
  match tasks s !! rid with
  | Some t => {| world := snd (task_step rid t (world s));
                 tasks := <[rid := fst (task_step rid t (world s))]> (tasks s) |}
  | None => s
  end.

(** ** Inputs used in examples *)

Definition example_clock (n : nat) : string := "2024-05-01T10:00:00.000Z".

Definition example_message : json :=
  JObj [("type", JStr "message"); ("content", JStr "hi")].

(** The same event under a session id, and one whose session id is an
    object with an own property [toString]. *)
Definition example_signed_message : json :=
  JObj [("type", JStr "message"); ("sessionId", JStr "k3x9");
        ("content", JStr "hi")].

Definition example_unprintable_message : json :=
  JObj [("type", JStr "message");
        ("sessionId", JObj [("toString", JNum "1")]);
        ("content", JStr "hi")].

Definition example_channel (broken : gset nat) : WsState :=
  {| clients := [1; 2; 3]; send_throws := broken; outbox := ∅;
     console := []; date_calls := 0 |}.

Definition example_users : list User := [mkUser 7 "bob"].

Definition example_pdf : UploadedFile :=
  {| originalname := "a.pdf"; mimetype := "application/pdf";
     path := "/uploads/1714557600000-42-a.pdf"; size := 5 |}.

Definition example_video : UploadedFile :=
  {| originalname := "a.mp4"; mimetype := "video/mp4";
     path := "/uploads/1714557600000-43-a.mp4"; size := 2048 |}.

Definition example_world : World :=
  {| storage := {| contents := ∅; contentIdCounter := 0 |}; trace := [] |}.

(** A store that already holds a finished record. *)
Definition example_stored_record : Content :=
  {| c_id := 0; c_userId := Some 7; c_filename := "old.pdf"; c_type := pdf;
     c_filePath := "/uploads/1714557500000-7-old.pdf"; c_fileSize := 9;
     c_status := complete; c_summary := Some "An old summary." |}.

Definition example_stored_world : World :=
  {| storage := {| contents := {[ 0 := example_stored_record ]};
                   contentIdCounter := 1 |};
     trace := [] |}.

Definition example_session_text : string := "0.4fzyo82mvyr".

Definition example_pdf_request : UploadRequest :=
  {| authorization := None; file_part := Some example_pdf |}.


Definition example_user : ReqUser :=
  {| ru_id := Some 7; ru_username := Some "bob" |}.

(** Two uploads in flight at once: a PDF whose summarizer throws and a
    video, their steps alternating. *)
Definition example_interleaving : System :=
  run_step 0 (run_step 1 (run_step 0 (run_step 1 (run_step 0 (run_step 1
    (run_step 0
      (accept (mkTask example_user (Some example_video) (SummaryText "") AtStart)
        (accept (mkTask example_user (Some example_pdf) (SummaryError "timeout") AtStart)
          {| world := example_world; tasks := [] |})))))))).

(* ===================================================================== *)
(** ** Register and login (routes.ts l.98-153)                           *)
(* ===================================================================== *)

(** A user row with the password [login] compares against. *)
Record Account := mkAccount { account : User; password : string }.

(** How an awaited call of [storage] ends: the promise rejects, or it
    resolves to a value. *)
Inductive StoreCall (A : Type) :=
| Rejects (error : string)
| Resolves (a : A).
Arguments Rejects {A} error.
Arguments Resolves {A} a.

(** The calls of [storage] a handler made, in order. *)
Inductive StoreOp :=
| OpGetUserByUsername (name : jsval)
| OpCreateUser (userData : json).

(** The JSON body of an answer of the two routes. *)
Inductive AuthBody :=
| AuthMessage (message : string)
| AuthSession (id : nat) (name : string) (sessionId : string).

(** What a run of one of the two handlers leaves: the answer, the calls
    of [storage] it made and the lines it wrote with [console.error]. *)
Record AuthOutcome := mkAuthOutcome {
  o_status : nat;
  o_body : AuthBody;
  o_calls : list StoreOp;
  o_errors : list string
}.

(** [user.password !== password] *)
Definition password_differs (stored : string) (given : jsval) : bool :=
  negb (strict_eq_string given stored).

(** [POST /api/auth/login] (l.127-153).  [body] is [req.body];
    [getUserByUsername] is the store as the handler finds it.  Reading
    [username] and [password] off a body that is [undefined] or [null]
    throws; on other values the read is as for [get_prop], no prototype
    having either name. *)
Definition login (getUserByUsername : jsval -> StoreCall (option Account))
    (r36 : string) (body : jsval) (sessions : gmap string Session)
  : AuthOutcome * gmap string Session :=
  let failed error :=
    ({| o_status := 500; o_body := AuthMessage "Failed to log in";
        o_calls := []; o_errors := ["Error logging in: " ++ error] |}, sessions) in
  match body with
  | None => failed "TypeError: Cannot destructure property 'username'"
  | Some data =>
      match get_prop data "username", get_prop data "password" with
      | inr username, inr given =>
          if negb (truthy username) || negb (truthy given) then
            ({| o_status := 400;
                o_body := AuthMessage "Username and password are required";
                o_calls := []; o_errors := [] |}, sessions)
          else
            match getUserByUsername username with
            | Rejects error =>
                ({| o_status := 500; o_body := AuthMessage "Failed to log in";
                    o_calls := [OpGetUserByUsername username];
                    o_errors := ["Error logging in: " ++ error] |}, sessions)
            | Resolves None =>
                ({| o_status := 401;
                    o_body := AuthMessage "Invalid username or password";
                    o_calls := [OpGetUserByUsername username];
                    o_errors := [] |}, sessions)
            | Resolves (Some user) =>
                if password_differs (password user) given then
                  ({| o_status := 401;
                      o_body := AuthMessage "Invalid username or password";
                      o_calls := [OpGetUserByUsername username];
                      o_errors := [] |}, sessions)
                else
                  let sessionId := new_session_id r36 in
                  ({| o_status := 200;
                      o_body := AuthSession (user_id (account user))
                                            (user_name (account user)) sessionId;
                      o_calls := [OpGetUserByUsername username];
                      o_errors := [] |},
                   <[sessionId := mkSession (user_id (account user))
                                            (user_name (account user))]> sessions)
            end
      | inl error, _ | _, inl error => failed error
      end
  end.

(** [POST /api/auth/register] (l.98-125).  [parse] is
    [insertUserSchema.parse] (@shared/schema, outside this file): [None] is a
    thrown [ZodError], otherwise the validated [userData].  [createUser] is
    the store's answer to [storage.createUser(userData)]. *)
Definition register (parse : jsval -> option json)
    (getUserByUsername : jsval -> StoreCall (option Account))
    (createUser : json -> StoreCall User)
    (r36 : string) (body : jsval) (sessions : gmap string Session)
  : AuthOutcome * gmap string Session :=
  match parse body with
  | None =>
      ({| o_status := 400; o_body := AuthMessage "Invalid user data";
          o_calls := []; o_errors := [] |}, sessions)
  | Some userData =>
      match get_prop userData "username" with
      | inl error =>
          ({| o_status := 500; o_body := AuthMessage "Failed to register user";
              o_calls := [];
              o_errors := ["Error registering user: " ++ error] |}, sessions)
      | inr username =>
          match getUserByUsername username with
          | Rejects error =>
              ({| o_status := 500; o_body := AuthMessage "Failed to register user";
                  o_calls := [OpGetUserByUsername username];
                  o_errors := ["Error registering user: " ++ error] |}, sessions)
          | Resolves (Some _) =>
              ({| o_status := 400; o_body := AuthMessage "Username already exists";
                  o_calls := [OpGetUserByUsername username];
                  o_errors := [] |}, sessions)
          | Resolves None =>
              match createUser userData with
              | Rejects error =>
                  ({| o_status := 500;
                      o_body := AuthMessage "Failed to register user";
                      o_calls := [OpGetUserByUsername username;
                                  OpCreateUser userData];
                      o_errors := ["Error registering user: " ++ error] |},
                   sessions)
              | Resolves newUser =>
                  let sessionId := new_session_id r36 in
                  ({| o_status := 201;
                      o_body := AuthSession (user_id newUser) (user_name newUser)
                                            sessionId;
                      o_calls := [OpGetUserByUsername username;
                                  OpCreateUser userData];
                      o_errors := [] |},
                   <[sessionId := mkSession (user_id newUser) (user_name newUser)]>
                     sessions)
              end
          end
      end
  end.

(* ===================================================================== *)
(** ** Counting the events of one request                                *)
(* ===================================================================== *)

(** A call of [summarizeDocument] made by request [rid]. *)
Definition is_summarize (rid : nat) (e : nat * Event) : bool :=
  match e with
  | (rid', EvSummarize _) => bool_decide (rid' = rid)
  | _ => false
  end.

Fixpoint count_events (p : nat * Event -> bool) (tr : list (nat * Event)) : nat :=
  match tr with
  | [] => 0
  | e :: rest => (if p e then 1 else 0) + count_events p rest
  end.

(** The handler has returned. *)
Definition finished (t : Task) : bool :=
  match t_pc t with Finished _ => true | _ => false end.

(** The handler is past its call of the summarizer: it holds the answer,
    or it is at or after the response of a record filed as a PDF. *)
Definition summarized (t : Task) : bool :=
  match t_pc t with
  | AtUpdateComplete _ _ | AtCatch _ _ => true
  | AtRespond c | Finished (Some c) => bool_decide (c_type c = pdf)
  | _ => false
  end.

(** The branch a task is on agrees with the type of its record. *)
Definition branch_typed (t : Task) : Prop :=
  match t_pc t with
  | AtSummarize _ c | AtUpdateComplete c _ | AtCatch c _ => c_type c = pdf
  | AtUpdateVideo c => c_type c = video
  | _ => True
  end.

(** What the trace holds of each request, in every reachable system. *)
Definition counts_inv (s : System) : Prop :=
  forall rid,
    match tasks s !! rid with
    | Some t =>
        count_events (is_response rid) (trace (world s))
        = (if finished t then 1 else 0) /\
        count_events (is_summarize rid) (trace (world s))
        = (if summarized t then 1 else 0) /\
        branch_typed t
    | None =>
        count_events (is_response rid) (trace (world s)) = 0 /\
        count_events (is_summarize rid) (trace (world s)) = 0
    end.

(* ===================================================================== *)
(** ** Names of stored files (routes.ts l.409-417)                       *)
(* ===================================================================== *)

(** The [filename] function of [multer.diskStorage]: [now] is [Date.now()],
    [random] is [Math.round(Math.random() * 1E9)]; both are whole numbers
    that JavaScript prints in plain decimal. *)
Definition multer_filename (now random : N) (original : string) : string :=
  pretty now +:+ "-" +:+ pretty random +:+ "-" +:+ original.

(** A text without the character [-]. *)
Fixpoint no_dash (s : string) : Prop :=
  match s with
  | EmptyString => True
  | String c rest => c ≠ "-"%char /\ no_dash rest
  end.

(* ===================================================================== *)
(** ** Skill form and [POST /api/skills] (routes.ts l.21-27, l.280-311)  *)
(* ===================================================================== *)

Inductive SkillType := teach | learn.

Inductive Proficiency := Beginner | Intermediate | Advanced | Expert.

(** The data [skillFormSchema.parse] returns. *)
Record SkillForm := mkSkillForm {
  sf_type : SkillType;
  sf_name : string;
  sf_proficiency : Proficiency;
  sf_description : option string
}.

Definition type_text (t : SkillType) : string :=
  match t with teach => "teach" | learn => "learn" end.

Definition proficiency_text (p : Proficiency) : string :=
  match p with
  | Beginner => "Beginner" | Intermediate => "Intermediate"
  | Advanced => "Advanced" | Expert => "Expert"
  end.

(** [z.enum(["teach", "learn"])]: a string, and one of the two. *)
Definition parse_type (v : jsval) : option SkillType :=
  match v with
  | Some (JStr s) =>
      if bool_decide (s = "teach") then Some teach
      else if bool_decide (s = "learn") then Some learn
      else None
  | _ => None
  end.

(** [z.enum(["Beginner", "Intermediate", "Advanced", "Expert"])] *)
Definition parse_proficiency (v : jsval) : option Proficiency :=
  match v with
  | Some (JStr s) =>
      if bool_decide (s = "Beginner") then Some Beginner
      else if bool_decide (s = "Intermediate") then Some Intermediate
      else if bool_decide (s = "Advanced") then Some Advanced
      else if bool_decide (s = "Expert") then Some Expert
      else None
  | _ => None
  end.

(** [z.string().min(2, ...)]: a string of length at least 2 (a character
    of the text counting as one unit of length). *)
Definition parse_name (v : jsval) : option string :=
  match v with
  | Some (JStr s) => if (2 <=? String.length s)%nat then Some s else None
  | _ => None
  end.

(** [z.string().optional()]: absent, or a string. *)
Definition parse_description (v : jsval) : option (option string) :=
  match v with
  | None => Some None
  | Some (JStr s) => Some (Some s)
  | _ => None
  end.

(** [skillFormSchema.parse(req.body)] (l.22-27, l.282): [None] is a thrown
    [ZodError].  The body has to be an object; each key of the schema is
    read and checked; keys the schema does not name are dropped. *)
Definition skillFormSchema_parse (body : jsval) : option SkillForm :=
  match body with
  | Some (JObj fields) =>
      match parse_type (assoc_get "type" fields),
            parse_name (assoc_get "name" fields),
            parse_proficiency (assoc_get "proficiency" fields),
            parse_description (assoc_get "description" fields) with
      | Some t, Some n, Some p, Some d =>
          Some {| sf_type := t; sf_name := n; sf_proficiency := p;
                  sf_description := d |}
      | _, _, _, _ => None
      end
  | _ => None
  end.

(** The validated data as the object the parser returns: the keys of the
    schema, [description] only when it was given. *)
Definition skill_form_json (f : SkillForm) : json :=
  JObj ([("type", JStr (type_text (sf_type f)));
         ("name", JStr (sf_name f));
         ("proficiency", JStr (proficiency_text (sf_proficiency f)))]
        ++ match sf_description f with
           | Some d => [("description", JStr d)]
           | None => []
           end)%list.

(** A row of the skill table, and the arguments of [storage.createSkill]
    and [storage.createUserSkill]. *)
Record Skill := mkSkill { skill_id : nat; skill_name : string; skill_category : string }.

Record InsertSkill := mkInsertSkill { is_name : string; is_category : string }.

Record InsertUserSkill := mkInsertUserSkill {
  ius_userId : option nat;
  ius_skillId : nat;
  ius_type : SkillType;
  ius_proficiency : Proficiency;
  ius_description : string
}.

Inductive SkillOp :=
| OpGetSkillByName (name : string)
| OpCreateSkill (ins : InsertSkill)
| OpCreateUserSkill (ins : InsertUserSkill).

Inductive SkillBody :=
| SkillMessage (message : string)
| SkillRow (userSkill : json).

Record SkillOutcome := mkSkillOutcome {
  sk_status : nat;
  sk_body : SkillBody;
  sk_calls : list SkillOp;
  sk_errors : list string
}.

(** [{ name, category: type === "teach" ? "Teaching" : "Learning" }] *)
Definition skill_insert (f : SkillForm) : InsertSkill :=
  {| is_name := sf_name f;
     is_category := match sf_type f with
                    | teach => "Teaching"
                    | learn => "Learning"
                    end |}.

(** The argument of [storage.createUserSkill] (l.295-301);
    [description || ""] turns an absent description into the empty text. *)
Definition user_skill_insert (user : ReqUser) (skill : Skill) (f : SkillForm)
  : InsertUserSkill :=
  {| ius_userId := ru_id user;
     ius_skillId := skill_id skill;
     ius_type := sf_type f;
     ius_proficiency := sf_proficiency f;
     ius_description := default "" (sf_description f) |}.

(** The end of the handler: the user skill is created and returned. *)
Definition post_skills_finish (createUserSkill : InsertUserSkill -> StoreCall json)
    (user : ReqUser) (f : SkillForm) (skill : Skill) (calls : list SkillOp)
  : SkillOutcome :=
  let ins := user_skill_insert user skill f in
  match createUserSkill ins with
  | Rejects error =>
      {| sk_status := 500; sk_body := SkillMessage "Failed to create skill";
         sk_calls := (calls ++ [OpCreateUserSkill ins])%list;
         sk_errors := ["Error creating skill: " ++ error] |}
  | Resolves userSkill =>
      {| sk_status := 201; sk_body := SkillRow userSkill;
         sk_calls := (calls ++ [OpCreateUserSkill ins])%list;
         sk_errors := [] |}
  end.

(** [POST /api/skills] (l.280-311), after [authenticate]. *)
Definition post_skills
    (getSkillByName : string -> StoreCall (option Skill))
    (createSkill : InsertSkill -> StoreCall Skill)
    (createUserSkill : InsertUserSkill -> StoreCall json)
    (user : ReqUser) (body : jsval) : SkillOutcome :=
  match skillFormSchema_parse body with
  | None =>
      {| sk_status := 400; sk_body := SkillMessage "Invalid skill data";
         sk_calls := []; sk_errors := [] |}
  | Some validatedData =>
      let lookup := OpGetSkillByName (sf_name validatedData) in
      match getSkillByName (sf_name validatedData) with
      | Rejects error =>
          {| sk_status := 500; sk_body := SkillMessage "Failed to create skill";
             sk_calls := [lookup];
             sk_errors := ["Error creating skill: " ++ error] |}
      | Resolves (Some skill) =>
          post_skills_finish createUserSkill user validatedData skill [lookup]
      | Resolves None =>
          let ins := skill_insert validatedData in
          match createSkill ins with
          | Rejects error =>
              {| sk_status := 500;
                 sk_body := SkillMessage "Failed to create skill";
                 sk_calls := [lookup; OpCreateSkill ins];
                 sk_errors := ["Error creating skill: " ++ error] |}
          | Resolves skill =>
              post_skills_finish createUserSkill user validatedData skill
                                 [lookup; OpCreateSkill ins]
          end
      end
  end.

(* ===================================================================== *)
(** ** The current user (routes.ts l.181-211)                            *)
(* ===================================================================== *)

(** [const { password, ...userWithoutPassword } = user]: the own
    properties of [user] but [password], in their order. *)
Fixpoint without_password (fields : list (string * json)) : list (string * json) :=
  match fields with
  | [] => []
  | (k, v) :: rest =>
      if bool_decide (k = "password") then without_password rest
      else (k, v) :: without_password rest
  end.

Inductive UserBody :=
| UserMessage (message : string)
| UserFields (fields : list (string * json)).

(** The end both handlers share: 404 without a user, else the user
    without its password. *)
Definition answer_user (failure : string) (found : StoreCall (option (list (string * json))))
  : nat * UserBody :=
  match found with
  | Rejects _ => (500, UserMessage failure)
  | Resolves None => (404, UserMessage "User not found")
  | Resolves (Some user) => (200, UserFields (without_password user))
  end.

(** [GET /api/users/current] (l.181-195), after [authenticate]. *)
Definition get_current_user
    (getUserById : option nat -> StoreCall (option (list (string * json))))
    (user : ReqUser) : nat * UserBody :=
  answer_user "Failed to fetch user data" (getUserById (ru_id user)).

(** [PATCH /api/users/current] (l.197-211), after [authenticate]: the whole
    body goes to [storage.updateUser]. *)
Definition patch_current_user
    (updateUser : option nat -> jsval -> StoreCall (option (list (string * json))))
    (user : ReqUser) (body : jsval) : nat * UserBody :=
  answer_user "Failed to update user" (updateUser (ru_id user) body).

(* ===================================================================== *)
(** ** Recipients of a broadcast                                         *)
(* ===================================================================== *)

(** The sockets the loop sends to, in the order it visits them. *)
Definition recipients (ws : nat) (l : list nat) : list nat :=
  filter (fun c => c ≠ ws) l.

(** ** Further inputs used in examples *)

(** A store with one user, bob, whose password is "secret". *)
Definition example_getUserByUsername (name : jsval) : StoreCall (option Account) :=
  if strict_eq_string name "bob"
  then Resolves (Some (mkAccount (mkUser 7 "bob") "secret"))
  else Resolves None.

Definition example_login_body : jsval :=
  Some (JObj [("username", JStr "bob"); ("password", JStr "secret")]).

Definition example_skill_body : jsval :=
  Some (JObj [("type", JStr "teach"); ("name", JStr "Rust");
              ("proficiency", JStr "Advanced")]).

Definition example_user_row : list (string * json) :=
  [("id", JNum "7"); ("username", JStr "bob"); ("password", JStr "secret")].

(** ** Proof steps used more than once *)

(** Unfolds the four steps of [run_task]. *)
Ltac run_steps :=
  cbv [run_task Nat.iter nat_rect]; cbn [fst snd].

(** Closes [x ∉ [a; b; ...]] when [x] differs from every element by its
    constructor. *)
Ltac not_in_list :=
  let H := fresh in
  intros H;
  repeat (apply elem_of_cons in H as [H|H]; [discriminate H|]);
  by apply elem_of_nil in H.

(** Decides a closed decidable proposition by evaluation. *)
Ltac by_compute := apply (bool_decide_unpack _); vm_compute; exact I.

(* ===================================================================== *)
(** * Properties                                                        *)
(* ===================================================================== *)

(** ** Session registry *)

Lemma sessions_get_own (sessions : gmap string Session) key s :
  sessions !! key = Some s -> sessions_get sessions key = OwnSession s.
Proof. intros H. unfold sessions_get. by rewrite H. Qed.

Lemma sessions_get_unknown (sessions : gmap string Session) key :
  sessions !! key = None -> key ∉ object_prototype_keys ->
  sessions_get sessions key = Undefined.
Proof.
  intros H Hk. unfold sessions_get. rewrite H.
  by rewrite bool_decide_eq_false_2.
Qed.

(** A token that is neither registered nor a property name of
    [Object.prototype] is answered with 401. *)
Lemma authenticate_unknown_401 (sessions : gmap string Session) token :
  sessions !! token = None -> token ∉ object_prototype_keys ->
  authenticate sessions (Some token) = Respond 401 "Unauthorized".
Proof.
  intros H Hk. unfold authenticate.
  rewrite (sessions_get_unknown _ _ H Hk). simpl.
  by rewrite orb_true_r.
Qed.

(** A registered, non-empty token authenticates as the user of its session. *)
Lemma authenticate_known (sessions : gmap string Session) token s :
  token ≠ "" -> sessions !! token = Some s ->
  authenticate sessions (Some token)
  = Next {| ru_id := Some (userId s); ru_username := Some (username s) |}.
Proof.
  intros Hne H. unfold authenticate.
  rewrite (sessions_get_own _ _ _ H). simpl.
  by rewrite bool_decide_eq_false_2.
Qed.

(** No token and at least one user: a session for the first user is
    written and the request goes on as that user, as long as the generated
    session id is not the empty text. *)
Lemma guard_auto_login users u rest r36 h (sessions : gmap string Session) :
  header_falsy h = true -> users = u :: rest -> new_session_id r36 ≠ "" ->
  guard users r36 h sessions
  = (Next {| ru_id := Some (user_id u); ru_username := Some (user_name u) |},
     <[new_session_id r36 := mkSession (user_id u) (user_name u)]> sessions).
Proof.
  intros Hh -> Hne. unfold guard, auto_login. rewrite Hh.
  f_equal.
  by rewrite (authenticate_known _ _ (mkSession (user_id u) (user_name u)) Hne)
    by apply lookup_insert_eq.
Qed.

(** No token and no user: 401. *)
Lemma guard_no_user r36 h (sessions : gmap string Session) :
  header_falsy h = true ->
  guard [] r36 h sessions = (Respond 401 "Unauthorized", sessions).
Proof.
  intros Hh. unfold guard, auto_login. rewrite Hh. f_equal.
  destruct h as [s|]; [|done].
  simpl in Hh. unfold authenticate. by rewrite Hh.
Qed.

(** [authenticate] answers with 401 or not at all. *)
Lemma authenticate_respond_401 (sessions : gmap string Session) h status message :
  authenticate sessions h = Respond status message -> status = 401.
Proof.
  unfold authenticate. destruct h as [sid|]; [|by intros [= <- _]].
  destruct (_ || _); [by intros [= <- _] | done].
Qed.

(** C8: a request whose Authorization header is the text "constructor",
    a token no session was ever created for, is not answered with 401: the
    read [sessions["constructor"]] finds [Object.prototype.constructor],
    [authenticate] calls [next()] and [req.user] has an undefined id and
    username. *)
Theorem authenticate_inherited_key_passes :
  (∅ : gmap string Session) !! "constructor" = None /\
  authenticate ∅ (Some "constructor")
  = Next {| ru_id := None; ru_username := None |} /\
  guard [mkUser 1 "alice"] "0.4fzyo82mvyr" (Some "constructor") ∅
  = (Next {| ru_id := None; ru_username := None |}, ∅).
Proof. split; [done|]. split; reflexivity. Qed.

(** ** Real-time channel *)

(** The loop over a concatenation runs the second part only when the
    first ended normally. *)
Lemma forEach_app (l1 l2 : list nat) (callback : nat -> WsM unit) : forall st,
  forEach (l1 ++ l2) callback st
  = match forEach l1 callback st with
    | (inl e, st') => (inl e, st')
    | (inr _, st') => forEach l2 callback st'
    end.
Proof.
  induction l1 as [|x l1 IH]; intros st; simpl; [done|].
  unfold mbind, ws_bind.
  destruct (callback x st) as [[e|u] st1]; [done|]. apply IH.
Qed.

(** Induction on a value of [JSON.parse], through the items of arrays. *)
Lemma json_items_ind (P : json -> Prop) :
  P JNull -> (forall b, P (JBool b)) -> (forall r, P (JNum r)) ->
  (forall s, P (JStr s)) ->
  (forall items, Forall P items -> P (JArr items)) ->
  (forall fields, P (JObj fields)) ->
  forall v, P v.
Proof.
  intros Hnull Hbool Hnum Hstr Harr Hobj.
  fix IH 1. intros [|b|r|s|items|fields].
  - exact Hnull.
  - apply Hbool.
  - apply Hnum.
  - apply Hstr.
  - apply Harr. induction items as [|x items IHitems].
    + constructor.
    + constructor; [apply IH | exact IHitems].
  - apply Hobj.
Qed.

(** The key conversion throws exactly on the unprintable values. *)
Lemma to_key_unprintable (v : json) :
  if unprintable v
  then to_key v = inl "TypeError: Cannot convert object to primitive value"
  else exists key, to_key v = inr key.
Proof.
  induction v as [|b|r|s|items IH|fields] using json_items_ind;
    cbn [unprintable]; try (by eexists).
  - by destruct b; eexists.
  - cbn [to_key].
    set (g := fun x => match x with JNull => inr "" | _ => to_key x end).
    assert (Hj : if existsb unprintable items
                 then join_keys (map g items)
                      = inl "TypeError: Cannot convert object to primitive value"
                 else exists parts, join_keys (map g items) = inr parts).
    { induction IH as [|x items Hx _ IHl]; [by eexists|].
      cbn [existsb map join_keys].
      destruct (unprintable x) eqn:Hux; cbn [orb].
      - assert (g x = to_key x) as -> by (by destruct x).
        by rewrite Hx.
      - assert (exists k, g x = inr k) as [k ->].
        { destruct Hx as [k Hk]. destruct x; try (by exists k); by eexists. }
        destruct (existsb unprintable items).
        + by rewrite IHl.
        + destruct IHl as [parts ->]. by eexists. }
    destruct (existsb unprintable items).
    + by rewrite Hj.
    + destruct Hj as [parts ->]. by eexists.
  - cbn [to_key]. destruct (assoc_get "toString" fields); [done|by eexists].
Qed.

Section broadcast.
Variable sessions : gmap string Session.
Variable clock : nat -> string.
Variable ws : nat.

Lemma frames_of_send_eq st client f :
  client ∉ send_throws st ->
  exists st', ws_send client f st = (inr tt, st') /\ same_sockets st st' /\
    console st' = console st /\ date_calls st' = date_calls st /\
    frames_of st' client = (frames_of st client ++ [f])%list /\
    forall c, c ≠ client -> frames_of st' c = frames_of st c.
Proof.
  intros Hok. unfold ws_send. rewrite bool_decide_eq_false_2 by done.
  eexists; split; [done|]. repeat split; simpl.
  - unfold frames_of at 1; simpl. by rewrite lookup_insert_eq.
  - intros c Hc. unfold frames_of at 1; simpl. by rewrite lookup_insert_ne.
Qed.

(** A message event is an object. *)
Lemma well_formed_is_object data :
  well_formed_message (Some data) = true -> exists fields, data = JObj fields.
Proof.
  destruct data; simpl; try done. eauto.
Qed.

(** An event without a truthy session id is sent on as "system". *)
Lemma sender_falsy sid :
  truthy sid = false ->
  sender_of sessions sid = inr SenderSystem /\
  sender_name_of sessions sid = inr (Some "System").
Proof.
  intros Ht. unfold sender_of, sender_name_of, sender_known. by rewrite Ht.
Qed.

(** The two sender members when the key conversion gives [key]. *)
Lemma sender_at_key v key :
  truthy (Some v) = true -> to_key v = inr key ->
  sender_of sessions (Some v)
  = inr (if truthy_read (sessions_get sessions key)
         then match read_userId (sessions_get sessions key) with
              | Some n => SenderUser n
              | None => SenderUndefined
              end
         else SenderSystem) /\
  sender_name_of sessions (Some v)
  = inr (if truthy_read (sessions_get sessions key)
         then read_username (sessions_get sessions key)
         else Some "System").
Proof.
  intros Ht Hk. unfold sender_of, sender_name_of, sender_known, sessions_at.
  rewrite Ht, Hk. unfold mbind, mret, js_bind, js_ret.
  by destruct (truthy_read (sessions_get sessions key)).
Qed.

(** An event whose session id names a stored session is sent on under
    the user of that session. *)
Lemma sender_stored v key s :
  truthy (Some v) = true -> to_key v = inr key -> sessions !! key = Some s ->
  sender_of sessions (Some v) = inr (SenderUser (userId s)) /\
  sender_name_of sessions (Some v) = inr (Some (username s)).
Proof.
  intros Ht Hk Hs. destruct (sender_at_key v key Ht Hk) as [-> ->].
  by rewrite (sessions_get_own _ _ _ Hs).
Qed.

(** The key conversion that throws also ends the two sender members. *)
Lemma sender_throws v e :
  truthy (Some v) = true -> to_key v = inl e ->
  sender_of sessions (Some v) = inl e /\ sender_name_of sessions (Some v) = inl e.
Proof.
  intros Ht Hk. unfold sender_of, sender_name_of, sender_known, sessions_at.
  by rewrite Ht, Hk.
Qed.

(** With a usable session id the three members of the frame are built. *)
Lemma frame_members_usable fields :
  usable_session_id (assoc_get "sessionId" fields) = true ->
  exists senderId senderName,
    sender_of sessions (assoc_get "sessionId" fields) = inr senderId /\
    sender_name_of sessions (assoc_get "sessionId" fields) = inr senderName /\
    frame_members sessions (JObj fields)
    = inr (senderId, senderName, assoc_get "content" fields).
Proof.
  intros Hu. unfold frame_members, get_prop.
  assert (Hs : exists senderId senderName,
    sender_of sessions (assoc_get "sessionId" fields) = inr senderId /\
    sender_name_of sessions (assoc_get "sessionId" fields) = inr senderName).
  { destruct (assoc_get "sessionId" fields) as [v|] eqn:Hsid.
    - destruct (truthy (Some v)) eqn:Ht.
      + unfold usable_session_id in Hu. rewrite Ht in Hu. cbn [negb orb] in Hu.
        pose proof (to_key_unprintable v) as Hv.
        destruct (unprintable v); [done|]. destruct Hv as [key Hk].
        destruct (sender_at_key v key Ht Hk) as [H1 H2]. eauto.
      + destruct (sender_falsy (Some v) Ht) as [H1 H2]. eauto.
    - destruct (sender_falsy None eq_refl) as [H1 H2]. eauto. }
  destruct Hs as (senderId & senderName & H1 & H2).
  exists senderId, senderName. split; [done|]. split; [done|].
  unfold mbind, mret, js_bind, js_ret. by rewrite H1, H2.
Qed.

(** With an unusable one the first member throws. *)
Lemma frame_members_unusable fields :
  usable_session_id (assoc_get "sessionId" fields) = false ->
  exists e, frame_members sessions (JObj fields) = inl e.
Proof.
  intros Hu. unfold frame_members, get_prop.
  destruct (assoc_get "sessionId" fields) as [v|] eqn:Hsid; [|done].
  unfold usable_session_id in Hu.
  destruct (truthy (Some v)) eqn:Ht; [|done]. cbn [negb orb] in Hu.
  pose proof (to_key_unprintable v) as Hk.
  destruct (unprintable v); [|done].
  destruct (sender_throws v _ Ht Hk) as [H1 _].
  eexists. unfold mbind, js_bind. by rewrite H1.
Qed.

(** The frame for a clock reading is made of the members. *)
Lemma broadcast_frame_members data members timestamp :
  frame_members sessions data = inr members ->
  broadcast_frame sessions data timestamp = inr (frame_of_members members timestamp).
Proof. intros H. unfold broadcast_frame. by rewrite H. Qed.

(** The callback on the sender itself does nothing. *)
Lemma broadcast_to_self data st :
  broadcast_to sessions clock ws data ws st = (inr tt, st).
Proof. unfold broadcast_to. by rewrite bool_decide_eq_false_2 by naive_solver. Qed.

(** The callback on another socket whose [send] works: the clock is read
    once and the frame goes to that socket. *)
Lemma broadcast_to_sends data members client st :
  frame_members sessions data = inr members ->
  client ≠ ws -> client ∉ send_throws st ->
  broadcast_to sessions clock ws data client st
  = (inr tt,
     {| clients := clients st; send_throws := send_throws st;
        outbox := <[client := (frames_of st client
                               ++ [frame_of_members members (clock (date_calls st))])%list]>
                    (outbox st);
        console := console st; date_calls := S (date_calls st) |}).
Proof.
  intros Hm Hne Hok. unfold broadcast_to. rewrite bool_decide_eq_true_2 by done.
  unfold mbind, ws_bind, new_Date, ws_lift, ws_send. rewrite Hm. cbn.
  by rewrite bool_decide_eq_false_2.
Qed.

(** The callback on another socket whose [send] throws: nothing is
    delivered and the error leaves the callback. *)
Lemma broadcast_to_throws data members client st :
  frame_members sessions data = inr members ->
  client ≠ ws -> client ∈ send_throws st ->
  exists e st',
    broadcast_to sessions clock ws data client st = (inl e, st') /\
    same_sockets st st' /\ outbox st' = outbox st /\ console st' = console st.
Proof.
  intros Hm Hne Hbad. unfold broadcast_to. rewrite bool_decide_eq_true_2 by done.
  eexists _, _. split.
  { unfold mbind, ws_bind, new_Date, ws_lift. rewrite Hm.
    unfold ws_send; simpl. rewrite bool_decide_eq_true_2 by done. done. }
  done.
Qed.

(** The callback when a member of the frame throws: the error leaves the
    callback before the clock is read. *)
Lemma broadcast_to_no_frame data e client st :
  frame_members sessions data = inl e -> client ≠ ws ->
  broadcast_to sessions clock ws data client st = (inl e, st).
Proof.
  intros Hm Hne. unfold broadcast_to. rewrite bool_decide_eq_true_2 by done.
  unfold mbind, ws_bind, ws_lift. by rewrite Hm.
Qed.

(** So the loop changes nothing at all. *)
Lemma forEach_no_frame data e (l : list nat) st :
  frame_members sessions data = inl e ->
  snd (forEach l (broadcast_to sessions clock ws data) st) = st.
Proof.
  intros Hm. induction l as [|x l IH]; [done|].
  cbn [forEach]. unfold mbind, ws_bind.
  destruct (decide (x = ws)) as [->|Hne].
  - by rewrite broadcast_to_self.
  - by rewrite (broadcast_to_no_frame data e x st Hm Hne).
Qed.

(** The loop over sockets whose [send] works: it ends normally, the clock
    was read once per recipient, the [i]-th recipient has one more frame,
    with reading [i], and no other outbox changed. *)
Lemma forEach_delivers data members (l : list nat) : forall st,
  frame_members sessions data = inr members ->
  NoDup l ->
  (forall c, c ∈ l -> c ≠ ws -> c ∉ send_throws st) ->
  exists st',
    forEach l (broadcast_to sessions clock ws data) st = (inr tt, st') /\
    same_sockets st st' /\ console st' = console st /\
    date_calls st' = date_calls st + length (recipients ws l) /\
    (forall i c, recipients ws l !! i = Some c ->
       frames_of st' c
       = (frames_of st c
          ++ [frame_of_members members (clock (date_calls st + i))])%list) /\
    (forall c, c ∉ l \/ c = ws -> frames_of st' c = frames_of st c).
Proof.
  induction l as [|x l IH]; intros st Hm Hnd Hok.
  - exists st. split; [done|]. split; [done|]. split; [done|].
    split; [cbn; lia|]. split; [|done]. intros i c Hc. done.
  - apply NoDup_cons in Hnd as [Hx Hnd].
    destruct (decide (x = ws)) as [->|Hne].
    + destruct (IH st Hm Hnd) as (st' & Hrun & Hsock & Hcon & Hdate & Hin & Hout).
      { intros c Hc. apply Hok. by right. }
      exists st'. split.
      { simpl. unfold mbind, ws_bind. by rewrite broadcast_to_self. }
      unfold recipients. rewrite filter_cons_False by (intros H; by apply H).
      split; [done|]. split; [done|]. split; [done|]. split; [done|].
      intros c Hc. apply Hout. destruct Hc as [Hc|Hc]; [|by right].
      left. intros Hc'. apply Hc. by right.
    + pose proof (broadcast_to_sends data members x st Hm Hne) as Hcb.
      specialize (Hcb (Hok x (list_elem_of_here x l) Hne)).
      set (st1 := mkWs (clients st) (send_throws st)
                       (<[x := (frames_of st x
                                ++ [frame_of_members members (clock (date_calls st))])%list]>
                          (outbox st))
                       (console st) (S (date_calls st))) in *.
      destruct (IH st1 Hm Hnd) as (st' & Hrun & [Hcl' Hth'] & Hcon & Hdate & Hin & Hout).
      { intros c Hc Hcne. apply (Hok c); [by right | done]. }
      assert (Hoth : forall c, c ≠ x -> frames_of st1 c = frames_of st c).
      { intros c Hc. unfold frames_of, st1; cbn. by rewrite lookup_insert_ne. }
      exists st'. split.
      { simpl. unfold mbind, ws_bind. by rewrite Hcb. }
      unfold recipients. rewrite filter_cons_True by done.
      fold (recipients ws l).
      split; [done|]. split; [done|]. split; [rewrite Hdate; cbn; lia|]. split.
      * intros [|i] c Hc.
        -- injection Hc as <-. rewrite Hout by (by left).
           unfold frames_of at 1, st1; cbn. rewrite lookup_insert_eq.
           by rewrite Nat.add_0_r.
        -- cbn in Hc. rewrite (Hin i c Hc).
           assert (c ∈ l).
           { apply list_elem_of_lookup_2 in Hc.
             by apply list_elem_of_filter in Hc as [_ ?]. }
           rewrite Hoth by (intros ->; done).
           cbn. by rewrite Nat.add_succ_r.
      * intros c Hc. destruct Hc as [Hc | ->].
        -- rewrite Hout, Hoth; [done| |].
           ++ intros ->. apply Hc. by left.
           ++ left. intros Hc'. apply Hc. by right.
        -- rewrite Hout by (by right). apply Hoth. done.
Qed.

(** Every recipient has a place in the order of the visits. *)
Lemma recipients_lookup (l : list nat) c :
  c ∈ l -> c ≠ ws -> exists i, recipients ws l !! i = Some c.
Proof.
  intros Hc Hne. apply list_elem_of_lookup_1. by apply list_elem_of_filter.
Qed.

(** The loop is cut where a [send] throws: the sockets after that point
    are not visited. *)
Lemma forEach_stops_at_throw data members (l1 l2 : list nat) bad : forall st,
  frame_members sessions data = inr members ->
  NoDup l1 ->
  (forall c, c ∈ l1 -> c ≠ ws -> c ∉ send_throws st) ->
  bad ≠ ws -> bad ∈ send_throws st ->
  exists e st',
    forEach (l1 ++ bad :: l2) (broadcast_to sessions clock ws data) st
    = (inl e, st') /\
    same_sockets st st' /\ console st' = console st /\
    (forall c, c ∈ l1 -> c ≠ ws ->
       exists n,
         frames_of st' c
         = (frames_of st c ++ [frame_of_members members (clock n)])%list) /\
    (forall c, c ∉ l1 \/ c = ws -> frames_of st' c = frames_of st c).
Proof.
  intros st Hm Hnd Hok Hne Hbad.
  destruct (forEach_delivers data members l1 st Hm Hnd Hok) as
    (st1 & Hrun & [Hcl Hth] & Hcon & _ & Hin & Hout).
  destruct (broadcast_to_throws data members bad st1 Hm Hne) as
    (e & st' & Hcb & [Hcl' Hth'] & Hbox & Hcon').
  { by rewrite Hth. }
  exists e, st'. split.
  { rewrite forEach_app, Hrun. simpl. unfold mbind, ws_bind. by rewrite Hcb. }
  assert (Hfr : forall c, frames_of st' c = frames_of st1 c).
  { intros c. unfold frames_of. by rewrite Hbox. }
  split; [split; congruence|]. split; [congruence|]. split.
  - intros c Hc Hcne. destruct (recipients_lookup l1 c Hc Hcne) as [i Hi].
    exists (date_calls st + i). rewrite Hfr. by apply Hin.
  - intros c Hc. rewrite Hfr. by apply Hout.
Qed.

(** Whatever the payload and whatever [send] does, the callback changes
    no socket set and no outbox but that of the socket it is called on. *)
Lemma broadcast_to_frame data client st :
  same_sockets st (snd (broadcast_to sessions clock ws data client st)) /\
  forall c, c ≠ client \/ client = ws ->
    frames_of (snd (broadcast_to sessions clock ws data client st)) c = frames_of st c.
Proof.
  unfold broadcast_to. case_bool_decide as Hne; [|done].
  unfold mbind, ws_bind, new_Date, ws_lift.
  destruct (frame_members sessions data) as [e|members]; [done|].
  unfold ws_send; simpl. case_bool_decide; [done|]. simpl.
  split; [done|]. intros c [Hc|Hc]; [|done].
  unfold frames_of at 1; simpl. by rewrite lookup_insert_ne.
Qed.

(** So the loop never hands a frame to the sender itself. *)
Lemma forEach_frame data (l : list nat) : forall st,
  same_sockets st (snd (forEach l (broadcast_to sessions clock ws data) st)) /\
  forall c, c ∉ l \/ c = ws ->
    frames_of (snd (forEach l (broadcast_to sessions clock ws data) st)) c
    = frames_of st c.
Proof.
  induction l as [|x l IH]; intros st; [done|].
  simpl. unfold mbind, ws_bind.
  destruct (broadcast_to_frame data x st) as [[Hcl Hth] Hfr].
  destruct (broadcast_to sessions clock ws data x st) as [[e|u] st1] eqn:Hcb;
    simpl in *.
  - split; [done|]. intros c [Hc | ->].
    + apply Hfr. left. intros ->. apply Hc. by left.
    + destruct (decide (ws = x)) as [<-|Hne]; apply Hfr; [by right | by left].
  - destruct (IH st1) as [[Hcl' Hth'] Hfr']. split; [split; congruence|].
    intros c Hc. rewrite Hfr'.
    + destruct Hc as [Hc | ->].
      * apply Hfr. left. intros ->. apply Hc. by left.
      * destruct (decide (ws = x)) as [<-|Hne]; apply Hfr; [by right | by left].
    + destruct Hc as [Hc|Hc]; [left | by right]. intros Hc'. apply Hc. by right.
Qed.

(** The handler on a message event: the line is logged, the loop runs, and
    an error that leaves the loop is logged as well. *)
Lemma on_message_object text fields st :
  well_formed_message (Some (JObj fields)) = true ->
  on_message sessions clock ws text (Some (JObj fields)) st
  = match forEach (clients st) (broadcast_to sessions clock ws (JObj fields))
            (snd (console_write ("Received message: " ++ text) st)) with
    | (inl e, st') => console_write ("WebSocket message error: " ++ e) st'
    | (inr a, st') => (inr a, st')
    end.
Proof.
  intros Hwf. unfold on_message, try_catch, on_message_body.
  unfold mbind, ws_bind at 1. simpl.
  unfold well_formed_message in Hwf. simpl in Hwf.
  unfold ws_bind, mret, ws_ret, ws_lift. simpl. rewrite Hwf. done.
Qed.

(** Outboxes and clock after the handler are those after the loop. *)
Lemma on_message_loop text fields st :
  well_formed_message (Some (JObj fields)) = true ->
  let st0 := snd (console_write ("Received message: " ++ text) st) in
  let st1 := snd (forEach (clients st)
                    (broadcast_to sessions clock ws (JObj fields)) st0) in
  outbox (snd (on_message sessions clock ws text (Some (JObj fields)) st))
  = outbox st1 /\
  date_calls (snd (on_message sessions clock ws text (Some (JObj fields)) st))
  = date_calls st1.
Proof.
  intros Hwf st0 st1. subst st0 st1. rewrite (on_message_object text fields st Hwf).
  by destruct (forEach _ _ _) as [[e|a] st'].
Qed.

End broadcast.

(** C4 (as the code has it): a message event received on socket [c1]
    never comes back to [c1].  Another registered socket [c2] is handed
    exactly one frame when the event's session id can be used as a property
    key and [send] raises neither on [c2] nor on a recipient visited before
    it.  That frame is a message frame with the event's content and the
    clock reading of its turn; it names "system" for an event without a
    session id and the session's user for an id that names a stored
    session. *)
Theorem message_reaches_others_not_sender
    (sessions : gmap string Session) (clock : nat -> string) (text : string)
    (parsed : option json) (st : WsState) (c1 c2 : nat)
    (before after : list nat) :
  well_formed_message parsed = true ->
  NoDup (clients st) -> c1 ∈ clients st ->
  clients st = (before ++ c2 :: after)%list -> c1 ≠ c2 ->
  let st' := snd (on_message sessions clock c1 text parsed st) in
  let sid := event_session_id parsed in
  frames_of st' c1 = frames_of st c1 /\
  (usable_session_id sid = true ->
   (forall c, c ∈ before -> c ≠ c1 -> c ∉ send_throws st) ->
   c2 ∉ send_throws st ->
   exists senderId senderName,
     frames_of st' c2
     = (frames_of st c2
        ++ [MessageFrame senderId senderName (event_content parsed)
              (clock (date_calls st + length (recipients c1 before)))])%list /\
     (truthy sid = false ->
      senderId = SenderSystem /\ senderName = Some "System") /\
     (forall v key s,
        sid = Some v -> truthy sid = true -> to_key v = inr key ->
        sessions !! key = Some s ->
        senderId = SenderUser (userId s) /\ senderName = Some (username s))).
Proof.
  intros Hwf Hnd Hc1 Hcl Hne st' sid. subst st' sid.
  destruct parsed as [data|]; [|done].
  destruct (well_formed_is_object data Hwf) as [fields ->].
  cbn [event_session_id event_content get_prop].
  set (st0 := snd (console_write ("Received message: " ++ text) st)).
  assert (Hfr : forall c,
    frames_of (snd (on_message sessions clock c1 text (Some (JObj fields)) st)) c
    = frames_of (snd (forEach (clients st)
                        (broadcast_to sessions clock c1 (JObj fields)) st0)) c).
  { intros c. unfold frames_of.
    by destruct (on_message_loop sessions clock c1 text fields st Hwf) as [-> _]. }
  split.
  - rewrite Hfr.
    destruct (forEach_frame sessions clock c1 (JObj fields) (clients st) st0)
      as [_ Hsame].
    by rewrite (Hsame c1) by (by right).
  - intros Hu Hok Hok2.
    destruct (frame_members_usable sessions fields Hu)
      as (senderId & senderName & Hs1 & Hs2 & Hm).
    exists senderId, senderName. split; [|split].
    + rewrite Hfr, Hcl.
      replace (before ++ c2 :: after)%list with ((before ++ [c2]) ++ after)%list
        by (by rewrite <- app_assoc).
      rewrite Hcl in Hnd.
      replace (before ++ c2 :: after)%list with ((before ++ [c2]) ++ after)%list
        in Hnd by (by rewrite <- app_assoc).
      apply NoDup_app in Hnd as (Hnd1 & Hdisj & _).
      destruct (forEach_delivers sessions clock c1 (JObj fields) _
                  (before ++ [c2])%list st0 Hm Hnd1)
        as (st1 & Hrun & _ & _ & _ & Hin & _).
      { intros c Hc Hcne. apply elem_of_app in Hc as [Hc|Hc]; [by apply Hok|].
        apply list_elem_of_singleton in Hc as ->. exact Hok2. }
      rewrite forEach_app, Hrun.
      destruct (forEach_frame sessions clock c1 (JObj fields) after st1)
        as [_ Hrest].
      rewrite (Hrest c2).
      2:{ left. apply Hdisj. apply elem_of_app. right. by apply list_elem_of_singleton. }
      apply (Hin (length (recipients c1 before)) c2).
      unfold recipients. rewrite filter_app, filter_cons_True by done.
      rewrite filter_nil. by apply list_lookup_middle.
    + intros Ht. destruct (sender_falsy sessions _ Ht) as [H1 H2]. split; congruence.
    + intros v key s Hsid Ht Hk Hl. rewrite Hsid in *.
      destruct (sender_stored sessions v key s Ht Hk Hl) as [H1 H2].
      split; congruence.
Qed.

(** C6: a payload that is not a message event (text that is not JSON,
    [null], or a value whose [type] is not "message") makes the handler
    return normally with every outbox, the socket set and the readiness of
    every socket as they were; only the console grew. *)
Theorem malformed_payload_dropped
    (sessions : gmap string Session) (clock : nat -> string) (ws : nat)
    (text : string) (parsed : option json) (st : WsState) :
  well_formed_message parsed = false ->
  exists st',
    on_message sessions clock ws text parsed st = (inr tt, st') /\
    same_sockets st st' /\ outbox st' = outbox st /\
    date_calls st' = date_calls st.
Proof.
  intros Hwf. unfold on_message, try_catch, on_message_body.
  unfold mbind, ws_bind, mret, ws_ret, ws_lift, ws_throw, JSON_parse. simpl.
  destruct parsed as [data|]; simpl; [|by eexists].
  unfold well_formed_message in Hwf.
  destruct (get_prop data "type") as [e|ty]; simpl; [by eexists|].
  rewrite Hwf. by eexists.
Qed.

(** C5 (as the code has it): for a message event whose session id can be
    used as a property key, when [send] raises on a recipient, the handler
    still returns normally, no socket is removed and the error is logged;
    the recipients visited before that one have the frame, with the event's
    content, and neither that one nor any socket after it is handed
    anything. *)
Theorem broadcast_stops_at_failed_send
    (sessions : gmap string Session) (clock : nat -> string) (ws : nat)
    (text : string) (parsed : option json) (st : WsState)
    (before after : list nat) (bad : nat) :
  well_formed_message parsed = true ->
  usable_session_id (event_session_id parsed) = true ->
  NoDup (clients st) -> clients st = (before ++ bad :: after)%list ->
  bad ≠ ws -> bad ∈ send_throws st ->
  (forall c, c ∈ before -> c ≠ ws -> c ∉ send_throws st) ->
  exists st' e,
    on_message sessions clock ws text parsed st = (inr tt, st') /\
    same_sockets st st' /\
    console st' = (console st ++ ["Received message: " +:+ text;
                                  "WebSocket message error: " +:+ e])%list /\
    (forall c, c ∈ before -> c ≠ ws ->
       exists data timestamp senderId senderName,
         parsed = Some data /\
         broadcast_frame sessions data timestamp
         = inr (MessageFrame senderId senderName (event_content parsed) timestamp) /\
         frames_of st' c
         = (frames_of st c
            ++ [MessageFrame senderId senderName (event_content parsed)
                  timestamp])%list) /\
    (forall c, c ∉ before -> frames_of st' c = frames_of st c).
Proof.
  intros Hwf Hu Hnd Hcl Hne Hbad Hok.
  destruct parsed as [data|]; [|done].
  destruct (well_formed_is_object data Hwf) as [fields ->].
  cbn [event_session_id event_content get_prop] in *.
  destruct (frame_members_usable sessions fields Hu)
    as (senderId & senderName & _ & _ & Hm).
  rewrite (on_message_object sessions clock ws text fields st Hwf).
  set (st0 := snd (console_write ("Received message: " ++ text) st)).
  rewrite Hcl in *. apply NoDup_app in Hnd as (Hnd1 & _ & _).
  destruct (forEach_stops_at_throw sessions clock ws (JObj fields) _ before after
              bad st0 Hm Hnd1 Hok Hne Hbad)
    as (e & st' & Hrun & [Hc Ht] & Hcon & Hin & Hout).
  rewrite Hrun. eexists _, e. split; [reflexivity|]. simpl.
  split; [split; [by rewrite Hc, Hcl | by rewrite Ht]|].
  split; [rewrite Hcon; simpl; by rewrite <- app_assoc|].
  split.
  - intros c Hcin Hcne. destruct (Hin c Hcin Hcne) as (n & Hfr).
    exists (JObj fields), (clock n), senderId, senderName. split; [done|].
    split; [|exact Hfr].
    by rewrite (broadcast_frame_members sessions _ _ (clock n) Hm).
  - intros c Hc'. apply Hout. by left.
Qed.

(** ** Upload route: one request served without interruption *)

Lemma updateContent_after_create (c : Content) (data : ContentPatch) (st : Storage) :
  c_id c = contentIdCounter st ->
  updateContent (c_id c) data
    {| contents := <[c_id c := c]> (contents st);
       contentIdCounter := S (contentIdCounter st) |}
  = (Some (apply_patch data c), storage_after c data st).
Proof.
  intros Hid. unfold updateContent; simpl. by rewrite lookup_insert_eq.
Qed.

Lemma fileType_of_pdf file :
  mimetype file = "application/pdf" -> fileType_of file = pdf.
Proof. intros H. unfold fileType_of. by rewrite bool_decide_eq_true_2. Qed.

Lemma fileType_of_other file :
  mimetype file ≠ "application/pdf" -> fileType_of file = video.
Proof. intros H. unfold fileType_of. by rewrite bool_decide_eq_false_2. Qed.

Lemma step_start_pdf rid user file summarizer w :
  mimetype file = "application/pdf" ->
  let c := created_content user file w in
  task_step rid (mkTask user (Some file) summarizer AtStart) w
  = (mkTask user (Some file) summarizer (AtSummarize file c),
     {| storage := {| contents := <[c_id c := c]> (contents (storage w));
                      contentIdCounter := S (contentIdCounter (storage w)) |};
        trace := (trace w ++ [(rid, EvCreate c)])%list |}).
Proof.
  intros Hpdf c. unfold task_step; simpl. by rewrite (fileType_of_pdf _ Hpdf).
Qed.

Lemma step_start_video rid user file summarizer w :
  mimetype file ≠ "application/pdf" ->
  let c := created_content user file w in
  task_step rid (mkTask user (Some file) summarizer AtStart) w
  = (mkTask user (Some file) summarizer (AtUpdateVideo c),
     {| storage := {| contents := <[c_id c := c]> (contents (storage w));
                      contentIdCounter := S (contentIdCounter (storage w)) |};
        trace := (trace w ++ [(rid, EvCreate c)])%list |}).
Proof.
  intros Hv c. unfold task_step; simpl. by rewrite (fileType_of_other _ Hv).
Qed.

(** The update that follows the creation of [c] finds [c] in the store. *)
Lemma do_update_after_create rid (c : Content) data id m n tr :
  c_id c = id ->
  do_update rid c data
    {| storage := {| contents := <[id := c]> m; contentIdCounter := n |};
       trace := tr |}
  = {| storage := {| contents := <[id := apply_patch data c]> (<[id := c]> m);
                     contentIdCounter := n |};
       trace := (tr ++ [(rid, EvUpdate id data)])%list |}.
Proof.
  intros <-. unfold do_update, updateContent, emit, set_storage; simpl.
  by rewrite lookup_insert_eq.
Qed.

(** A PDF whose summary arrives: create, summarize, update, respond. *)
Lemma run_task_pdf_text rid user file text w :
  mimetype file = "application/pdf" ->
  let c := created_content user file w in
  run_task rid (mkTask user (Some file) (SummaryText text) AtStart) w
  = (mkTask user (Some file) (SummaryText text) (Finished (Some c)),
     {| storage := storage_after c (patch_complete text) (storage w);
        trace := (trace w ++
                  [(rid, EvCreate c); (rid, EvSummarize (path file));
                   (rid, EvUpdate (c_id c) (patch_complete text));
                   (rid, EvRespond 201 (BodyContent c))])%list |}).
Proof.
  intros Hpdf c. run_steps.
  rewrite (step_start_pdf rid user file _ w Hpdf). fold c. cbn [fst snd].
  cbn -[do_update]. cbv [at_pc emit t_user t_file t_summarizer storage trace].
  rewrite (do_update_after_create rid c) by done.
  cbv [storage trace]. by rewrite <- !app_assoc.
Qed.

(** A PDF whose summarizer throws: create, summarize, log, update,
    respond. *)
Lemma run_task_pdf_error rid user file error w :
  mimetype file = "application/pdf" ->
  let c := created_content user file w in
  run_task rid (mkTask user (Some file) (SummaryError error) AtStart) w
  = (mkTask user (Some file) (SummaryError error) (Finished (Some c)),
     {| storage := storage_after c patch_failed (storage w);
        trace := (trace w ++
                  [(rid, EvCreate c); (rid, EvSummarize (path file));
                   (rid, EvLog ("Error summarizing PDF: " +:+ error));
                   (rid, EvUpdate (c_id c) patch_failed);
                   (rid, EvRespond 201 (BodyContent c))])%list |}).
Proof.
  intros Hpdf c. run_steps.
  rewrite (step_start_pdf rid user file _ w Hpdf). fold c. cbn [fst snd].
  cbn -[do_update]. cbv [at_pc emit t_user t_file t_summarizer storage trace].
  rewrite (do_update_after_create rid c) by done.
  cbv [storage trace]. by rewrite <- !app_assoc.
Qed.

(** Any other accepted file: create, update, respond. *)
Lemma run_task_video rid user file summarizer w :
  mimetype file ≠ "application/pdf" ->
  let c := created_content user file w in
  run_task rid (mkTask user (Some file) summarizer AtStart) w
  = (mkTask user (Some file) summarizer (Finished (Some c)),
     {| storage := storage_after c (patch_complete video_placeholder) (storage w);
        trace := (trace w ++
                  [(rid, EvCreate c);
                   (rid, EvUpdate (c_id c) (patch_complete video_placeholder));
                   (rid, EvRespond 201 (BodyContent c))])%list |}).
Proof.
  intros Hv c. run_steps.
  rewrite (step_start_video rid user file _ w Hv). fold c. cbn [fst snd].
  cbn -[do_update]. cbv [at_pc emit t_user t_file t_summarizer storage trace].
  rewrite (do_update_after_create rid c) by done.
  cbv [storage trace]. by rewrite <- !app_assoc.
Qed.


(** The handler always returns: four steps from [AtStart] end in
    [Finished]. *)
Lemma run_task_finishes rid user file summarizer w :
  exists created,
    t_pc (fst (run_task rid (mkTask user file summarizer AtStart) w))
    = Finished created.
Proof.
  destruct file as [file|]; [|by eexists].
  destruct (decide (mimetype file = "application/pdf")) as [Hpdf|Hv].
  - destruct summarizer as [text|error].
    + rewrite run_task_pdf_text by done. by eexists.
    + rewrite run_task_pdf_error by done. by eexists.
  - rewrite run_task_video by done. by eexists.
Qed.

Lemma events_since_app w tr' st' :
  events_since w {| storage := st'; trace := (trace w ++ tr')%list |} = tr'.
Proof. unfold events_since; simpl. by rewrite drop_app_length. Qed.

Lemma handle_upload_accepted users r36 sessions req user file summarizer rid w :
  fst (upload_route users r36 sessions req) = inr (user, file) ->
  handle_upload users r36 sessions req summarizer rid w
  = snd (run_task rid (mkTask user file summarizer AtStart) w).
Proof. intros H. unfold handle_upload. by rewrite H. Qed.

(** What multer lets through has an allowed type and fits the limit. *)
Lemma upload_route_accepted_file users r36 sessions req user file :
  fst (upload_route users r36 sessions req) = inr (user, Some file) ->
  file_part req = Some file /\ mimetype file ∈ allowedMimes /\
  (size file <= fileSizeLimit)%N.
Proof.
  unfold upload_route. destruct (guard _ _ _ _) as [[status msg|u] s']; [done|].
  unfold upload_single. destruct (file_part req) as [f|]; [|done].
  unfold fileFilter. case_bool_decide as Hm; [|done].
  destruct (fileSizeLimit <? size f)%N eqn:Hs; [done|].
  simpl. intros [= -> ->]. apply N.ltb_ge in Hs. done.
Qed.

Lemma lookup_storage_after (c : Content) data st :
  contents (storage_after c data st) !! c_id c = Some (apply_patch data c).
Proof. unfold storage_after; simpl. apply lookup_insert_eq. Qed.

(** For every accepted upload the update that takes the record out of
    [processing] is in the trace before the response. *)
Lemma response_follows_terminal_update
    users r36 sessions req user file summarizer rid w :
  fst (upload_route users r36 sessions req) = inr (user, Some file) ->
  let c := created_content user file w in
  let events := events_since w (handle_upload users r36 sessions req summarizer rid w) in
  exists i j,
    position (is_terminal_update (c_id c)) events = Some i /\
    position (is_response rid) events = Some j /\ i < j.
Proof.
  intros Hacc c events. subst events.
  rewrite (handle_upload_accepted _ _ _ _ _ _ _ _ _ Hacc).
  destruct (decide (mimetype file = "application/pdf")) as [Hpdf|Hv].
  - destruct summarizer as [text|error].
    + rewrite run_task_pdf_text by done. cbn [snd]. rewrite events_since_app.
      exists 2, 3. simpl. unfold is_terminal_update; simpl.
      rewrite !bool_decide_eq_true_2 by done. simpl.
      split; [done|]. split; [done|lia].
    + rewrite run_task_pdf_error by done. cbn [snd]. rewrite events_since_app.
      exists 3, 4. simpl. unfold is_terminal_update; simpl.
      rewrite !bool_decide_eq_true_2 by done. simpl.
      split; [done|]. split; [done|lia].
  - rewrite run_task_video by done. cbn [snd]. rewrite events_since_app.
    exists 1, 2. simpl. unfold is_terminal_update; simpl.
      rewrite !bool_decide_eq_true_2 by done. simpl.
    split; [done|]. split; [done|lia].
Qed.

(** C1: for the upload of a 5-byte PDF whose summarizer answers "S", the
    terminal update of the new record is event 2 of the request and the
    response is event 3: the handler awaits the processing and answers
    only afterwards, with the stored record already [complete]. *)
Theorem upload_response_after_processing :
  let w' := handle_upload example_users "0.4fzyo82mvyr" ∅
              (mkUpload None (Some example_pdf)) (SummaryText "S") 0 example_world in
  position (is_terminal_update 0) (events_since example_world w') = Some 2 /\
  position (is_response 0) (events_since example_world w') = Some 3 /\
  c_status <$> contents (storage w') !! 0 = Some complete.
Proof. vm_compute. done. Qed.




(** C7: an upload whose file part has a MIME type other than
    application/pdf and video/mp4, or more than 100 * 1024 * 1024 bytes,
    leaves the store as it was, creates no record, and is answered once,
    with a 4xx status: 401 when the request did not pass [authenticate],
    otherwise the answer to multer's error. *)
Theorem rejected_upload_creates_nothing
    users r36 sessions req file summarizer rid w :
  file_part req = Some file ->
  mimetype file ∉ allowedMimes \/ (fileSizeLimit < size file)%N ->
  let w' := handle_upload users r36 sessions req summarizer rid w in
  fileSizeLimit = 104857600%N /\
  storage w' = storage w /\
  (forall r c, (r, EvCreate c) ∉ events_since w w') /\
  exists status message,
    events_since w w' = [(rid, EvRespond status (BodyMessage message))] /\
    400 <= status < 500.
Proof.
  intros Hfile Hbad w'. subst w'. split; [done|].
  assert (Hrej : exists status message,
    fst (upload_route users r36 sessions req) = inl (status, BodyMessage message) /\
    400 <= status < 500).
  { unfold upload_route.
    destruct (guard users r36 (authorization req) sessions) as [auth s'] eqn:Hg.
    destruct auth as [status msg|u].
    - exists status, msg. split; [done|].
      unfold guard in Hg. destruct (auto_login _ _ _ _) as [h s''].
      injection Hg as Hauth _. apply authenticate_respond_401 in Hauth. lia.
    - unfold upload_single. rewrite Hfile. unfold fileFilter.
      case_bool_decide as Hm.
      + destruct Hbad as [Hbad|Hbad]; [done|].
        apply N.ltb_lt in Hbad. rewrite Hbad.
        eexists _, _. split; [reflexivity|]. lia.
      + eexists _, _. split; [reflexivity|]. lia. }
  destruct Hrej as (status & message & Hroute & Hstatus).
  unfold handle_upload. rewrite Hroute.
  unfold emit. rewrite events_since_app. cbn [storage].
  split; [done|]. split; [intros r c; by not_in_list|]. by exists status, message.
Qed.

(** ** Upload route: several requests interleaved *)




Lemma tasks_insert_same (ts : list Task) rid t t' :
  ts !! rid = Some t -> <[rid := t']> ts !! rid = Some t'.
Proof. intros H. apply list_lookup_insert_eq. by eapply lookup_lt_Some. Qed.











(** ** The theorems at concrete inputs *)

Lemma reachable_accept t s :
  t_pc t = AtStart -> reachable s -> reachable (accept t s).
Proof. intros Hpc Hs. eapply reach_step; [exact Hs|]. by apply step_accept. Defined.

Lemma reachable_run_step rid s : reachable s -> reachable (run_step rid s).
Proof.
  intros Hs. unfold run_step. destruct (tasks s !! rid) as [t|] eqn:Hl; [|exact Hs].
  eapply reach_step; [exact Hs|]. by apply step_run.
Defined.

Lemma example_interleaving_reachable : reachable example_interleaving.
Proof.
  unfold example_interleaving.
  do 7 apply reachable_run_step.
  do 2 (apply reachable_accept; [reflexivity|]).
  apply reach_init. intros id content Hl. cbn in Hl.
  by rewrite lookup_empty in Hl.
Defined.


Lemma message_reaches_others_witness :
  let sessions : gmap string Session := {[ "k3x9" := mkSession 3 "ann" ]} in
  let st := example_channel ∅ in
  let st' := snd (on_message sessions (fun n => pretty n) 1 "{...}"
                             (Some example_signed_message) st) in
  frames_of st' 1 = frames_of st 1 /\
  frames_of st' 3
  = (frames_of st 3
     ++ [MessageFrame (SenderUser 3) (Some "ann") (Some (JStr "hi"))
                      (pretty (date_calls st + 1))])%list.
Proof.
  destruct (message_reaches_others_not_sender
              {[ "k3x9" := mkSession 3 "ann" ]} (fun n => pretty n) "{...}"
              (Some example_signed_message) (example_channel ∅) 1 3 [1; 2] [])
    as [H1 H2].
  - reflexivity.
  - by_compute.
  - by_compute.
  - reflexivity.
  - lia.
  - intros sessions st st'. split; [exact H1|].
    destruct H2 as (senderId & senderName & Hfr & _ & Hknown).
    + reflexivity.
    + intros c _ _. apply not_elem_of_empty.
    + apply not_elem_of_empty.
    + destruct (Hknown (JStr "k3x9") "k3x9" (mkSession 3 "ann"))
        as [-> ->]; [reflexivity | reflexivity | reflexivity | |exact Hfr].
      apply lookup_singleton_eq.
Defined.

Lemma malformed_payload_dropped_witness :
  exists st',
    on_message ∅ example_clock 1 "null" (Some JNull) (example_channel ∅)
    = (inr tt, st') /\
    same_sockets (example_channel ∅) st' /\
    outbox st' = outbox (example_channel ∅) /\
    date_calls st' = date_calls (example_channel ∅).
Proof.
  apply (malformed_payload_dropped ∅ example_clock 1 "null" (Some JNull)
           (example_channel ∅)).
  reflexivity.
Defined.

(** C4: two message events that do not reach another registered socket.
    With sockets 1, 2, 3 registered and [send] raising on socket 2, the
    event from socket 1 does not reach socket 3.  With no [send] raising,
    an event whose session id is an object with an own property [toString]
    reaches neither socket 2 nor socket 3: the key conversion throws before
    the first frame is built. *)
Lemma message_lost_to_other_client :
  (let st := example_channel {[2]} in
   let st' := snd (on_message ∅ example_clock 1 "{...}" (Some example_message) st) in
   well_formed_message (Some example_message) = true /\
   1 ∈ clients st /\ 3 ∈ clients st /\ 1 ≠ 3 /\
   frames_of st' 3 = frames_of st 3) /\
  (let st := example_channel ∅ in
   let st' := snd (on_message ∅ example_clock 1 "{...}"
                              (Some example_unprintable_message) st) in
   well_formed_message (Some example_unprintable_message) = true /\
   1 ∈ clients st /\ 2 ∈ clients st /\ 1 ≠ 2 /\ send_throws st = ∅ /\
   frames_of st' 2 = frames_of st 2 /\ frames_of st' 3 = frames_of st 3 /\
   date_calls st' = date_calls st).
Proof.
  split; cbv zeta.
  - split; [reflexivity|]. split; [by repeat constructor|].
    split; [by repeat constructor|]. split; [lia|]. vm_compute. done.
  - split; [reflexivity|]. split; [by repeat constructor|].
    split; [by repeat constructor|]. split; [lia|]. split; [reflexivity|].
    vm_compute. done.
Qed.

(** C5: with sockets 1, 2, 3 registered, a message from socket 1 and
    socket 2 raising on [send], socket 3 is a registered recipient whose
    own [send] works, and it is handed nothing. *)
Lemma failed_send_starves_later_recipient :
  let st := example_channel {[2]} in
  let st' := snd (on_message ∅ example_clock 1 "{...}" (Some example_message) st) in
  well_formed_message (Some example_message) = true /\
  3 ∈ clients st /\ 3 ≠ 1 /\ (3 ∉ send_throws st) /\
  frames_of st' 3 = frames_of st 3 /\ frames_of st' 3 = [].
Proof.
  cbv zeta. split; [reflexivity|]. split; [by repeat constructor|].
  split; [lia|]. split.
  - intros H. change (3 ∈ ({[2]} : gset nat)) in H.
    apply elem_of_singleton in H. lia.
  - vm_compute. done.
Qed.

Lemma broadcast_stops_at_failed_send_witness :
  exists st' e,
    on_message ∅ example_clock 3 "{...}" (Some example_message)
               (example_channel {[2]}) = (inr tt, st') /\
    same_sockets (example_channel {[2]}) st' /\
    console st' = (console (example_channel {[2]})
                   ++ ["Received message: " +:+ "{...}";
                       "WebSocket message error: " +:+ e])%list /\
    (forall c, c ∈ [1] -> c ≠ 3 ->
       exists data timestamp senderId senderName,
         Some example_message = Some data /\
         broadcast_frame ∅ data timestamp
         = inr (MessageFrame senderId senderName (Some (JStr "hi")) timestamp) /\
         frames_of st' c
         = (frames_of (example_channel {[2]}) c
            ++ [MessageFrame senderId senderName (Some (JStr "hi")) timestamp])%list) /\
    (forall c, c ∉ [1] -> frames_of st' c = frames_of (example_channel {[2]}) c).
Proof.
  apply (broadcast_stops_at_failed_send ∅ example_clock 3 "{...}"
           (Some example_message) (example_channel {[2]}) [1] [3] 2).
  - reflexivity.
  - reflexivity.
  - by_compute.
  - reflexivity.
  - lia.
  - change (2 ∈ ({[2]} : gset nat)). by apply elem_of_singleton.
  - intros c Hc _ Hbad. apply list_elem_of_singleton in Hc.
    change (c ∈ ({[2]} : gset nat)) in Hbad.
    apply elem_of_singleton in Hbad. lia.
Defined.

Lemma example_pdf_accepted :
  fst (upload_route example_users example_session_text ∅ example_pdf_request)
  = inr (example_user, Some example_pdf).
Proof. vm_compute. reflexivity. Defined.






Lemma rejected_upload_creates_nothing_witness :
  let file := mkFile "notes.txt" "text/plain" "/uploads/1-notes.txt" 12 in
  let w' := handle_upload example_users example_session_text ∅
              (mkUpload None (Some file)) (SummaryText "S") 0 example_world in
  fileSizeLimit = 104857600%N /\
  storage w' = storage example_world /\
  (forall r c, (r, EvCreate c) ∉ events_since example_world w') /\
  exists status message,
    events_since example_world w' = [(0, EvRespond status (BodyMessage message))] /\
    400 <= status < 500.
Proof.
  apply (rejected_upload_creates_nothing example_users example_session_text ∅
           (mkUpload None (Some (mkFile "notes.txt" "text/plain"
                                   "/uploads/1-notes.txt" 12)))
           (mkFile "notes.txt" "text/plain" "/uploads/1-notes.txt" 12)
           (SummaryText "S") 0 example_world).
  - reflexivity.
  - left. by_compute.
Defined.

(** ** The two scenarios of the specification *)

(** Sockets 1 and 2 registered; socket 1 sends
    [{type:"message", content:"hi"}] without session id: socket 2 is handed
    a message frame from "system" / "System" with content "hi". *)
Example scenario_anonymous_message :
  let st := {| clients := [1; 2]; send_throws := ∅; outbox := ∅;
               console := []; date_calls := 0 |} in
  let st' := snd (on_message ∅ example_clock 1 "{...}" (Some example_message) st) in
  frames_of st' 2
  = [MessageFrame SenderSystem (Some "System") (Some (JStr "hi"))
                  "2024-05-01T10:00:00.000Z"] /\
  frames_of st' 1 = [].
Proof. vm_compute. done. Qed.

(** A 5-byte a.pdf of type application/pdf: the record is created with
    status [processing] and size 5; the summarizer returns "S"; the stored
    record is [complete] with summary "S". *)
Example scenario_pdf_upload :
  let w' := handle_upload example_users example_session_text ∅
              example_pdf_request (SummaryText "S") 0 example_world in
  (exists c, events_since example_world w' !! 0 = Some (0, EvCreate c) /\
             c_status c = processing /\ c_fileSize c = 5%N) /\
  (exists c', contents (storage w') !! 0 = Some c' /\
              c_status c' = complete /\ c_summary c' = Some "S").
Proof. split; eexists; vm_compute; done. Qed.

(* ===================================================================== *)
(** * Further properties                                                 *)
(* ===================================================================== *)

(** ** Sessions: login, register, authenticate *)

Lemma strict_eq_string_true (v : jsval) (s : string) :
  strict_eq_string v s = true <-> v = Some (JStr s).
Proof.
  unfold strict_eq_string. destruct v as [[]|]; try (split; [done|by intros [=]]).
  rewrite bool_decide_eq_true. split; [by intros -> | by intros [= ->]].
Qed.

(** X1: [login] answers 200 exactly when the body carries a truthy
    [username] and a non-empty string [password], the store has a user for
    that [username], and the stored password is that string.  Every other
    run answers 400, 401 or 500 and leaves the session registry as it
    was. *)
Theorem login_only_with_matching_password
    (getUserByUsername : jsval -> StoreCall (option Account))
    (r36 : string) (body : jsval) (sessions : gmap string Session) :
  let out := fst (login getUserByUsername r36 body sessions) in
  let sessions' := snd (login getUserByUsername r36 body sessions) in
  (o_status out = 200 <->
   exists data name given user,
     body = Some data /\
     get_prop data "username" = inr name /\ truthy name = true /\
     get_prop data "password" = inr (Some (JStr given)) /\ given ≠ "" /\
     getUserByUsername name = Resolves (Some user) /\
     password user = given) /\
  (o_status out ≠ 200 ->
   sessions' = sessions /\
   (o_status out = 400 \/ o_status out = 401 \/ o_status out = 500)).
Proof.
  cbv zeta. unfold login.
  destruct body as [data|]; cbn.
  2:{ split; [split; [done|]|by auto]. by intros (? & ? & ? & ? & [=] & _). }
  destruct (get_prop data "username") as [e|name] eqn:Hn; cbn.
  { split; [split; [done|]|by auto].
    by intros (? & ? & ? & ? & [= <-] & Hn' & _); rewrite Hn in Hn'. }
  destruct (get_prop data "password") as [e|given] eqn:Hp; cbn.
  { split; [split; [done|]|by auto].
    by intros (? & ? & ? & ? & [= <-] & _ & _ & Hp' & _); rewrite Hp in Hp'. }
  destruct (truthy name) eqn:Htn; cbn.
  2:{ split; [split; [done|]|by auto].
      intros (? & ? & ? & ? & [= <-] & Hn' & Ht & _).
      rewrite Hn in Hn'. injection Hn' as <-. congruence. }
  destruct (truthy given) eqn:Htg; cbn.
  2:{ split; [split; [done|]|by auto].
      intros (? & ? & g & ? & [= <-] & _ & _ & Hp' & Hg & _).
      rewrite Hp in Hp'. injection Hp' as ->. cbn in Htg.
      by rewrite bool_decide_eq_false_2 in Htg. }
  destruct (getUserByUsername name) as [e|[user|]] eqn:Hu; cbn.
  - split; [split; [done|]|by auto].
    intros (? & n & ? & ? & [= <-] & Hn' & _ & _ & _ & Hu' & _).
    rewrite Hn in Hn'. injection Hn' as <-. congruence.
  - unfold password_differs.
    destruct (strict_eq_string given (password user)) eqn:Heq; cbn.
    + apply strict_eq_string_true in Heq as ->.
      split; [|done]. split; [|done]. intros _.
      exists data, name, (password user), user.
      repeat (split; [done|]). split; [|done].
      intros Hempty. cbn in Htg. rewrite Hempty in Htg. done.
    + split; [split; [done|]|by auto].
      intros (? & n & g & u & [= <-] & Hn' & _ & Hp' & _ & Hu' & Hpw).
      rewrite Hn in Hn'. injection Hn' as <-.
      rewrite Hp in Hp'. injection Hp' as ->.
      rewrite Hu in Hu'. injection Hu' as <-. subst g.
      assert (strict_eq_string (Some (JStr (password user))) (password user) = true)
        by by apply strict_eq_string_true.
      congruence.
  - split; [split; [done|]|by auto].
    intros (? & n & ? & ? & [= <-] & Hn' & _ & _ & _ & Hu' & _).
    rewrite Hn in Hn'. injection Hn' as <-. congruence.
Qed.

(** The session a successful [login] or [register] returns. *)
Lemma login_session getUserByUsername r36 body sessions id name sessionId :
  o_body (fst (login getUserByUsername r36 body sessions))
  = AuthSession id name sessionId ->
  sessionId = new_session_id r36 /\
  snd (login getUserByUsername r36 body sessions)
  = <[sessionId := mkSession id name]> sessions.
Proof.
  unfold login. destruct body as [data|]; cbn; [|done].
  destruct (get_prop data "username") as [e|username]; cbn; [done|].
  destruct (get_prop data "password") as [e|given]; cbn; [done|].
  destruct (negb (truthy username) || negb (truthy given)); cbn; [done|].
  destruct (getUserByUsername username) as [e|[user|]]; cbn; [done| |done].
  destruct (password_differs (password user) given); cbn; [done|].
  by intros [= <- <- <-].
Qed.

Lemma register_session parse getUserByUsername createUser r36 body sessions
    id name sessionId :
  o_body (fst (register parse getUserByUsername createUser r36 body sessions))
  = AuthSession id name sessionId ->
  sessionId = new_session_id r36 /\
  snd (register parse getUserByUsername createUser r36 body sessions)
  = <[sessionId := mkSession id name]> sessions.
Proof.
  unfold register. destruct (parse body) as [userData|]; cbn; [|done].
  destruct (get_prop userData "username") as [e|username]; cbn; [done|].
  destruct (getUserByUsername username) as [e|[user|]]; cbn; [done|done|].
  destruct (createUser userData) as [e|newUser]; cbn; [done|].
  by intros [= <- <- <-].
Qed.

(** X2: the session id a successful [login] or [register] hands out, when
    it is not the empty text, passes [authenticate] on the resulting
    registry, and [req.user] is the id and name the answer carried. *)
Theorem issued_session_authenticates
    (parse : jsval -> option json)
    (getUserByUsername : jsval -> StoreCall (option Account))
    (createUser : json -> StoreCall User)
    (r36 : string) (body : jsval) (sessions : gmap string Session)
    (id : nat) (name sessionId : string) :
  sessionId ≠ "" ->
  (o_body (fst (login getUserByUsername r36 body sessions))
   = AuthSession id name sessionId ->
   authenticate (snd (login getUserByUsername r36 body sessions)) (Some sessionId)
   = Next {| ru_id := Some id; ru_username := Some name |}) /\
  (o_body (fst (register parse getUserByUsername createUser r36 body sessions))
   = AuthSession id name sessionId ->
   authenticate (snd (register parse getUserByUsername createUser r36 body sessions))
                (Some sessionId)
   = Next {| ru_id := Some id; ru_username := Some name |}).
Proof.
  intros Hne. split; intros Hbody.
  - destruct (login_session _ _ _ _ _ _ _ Hbody) as [_ ->].
    apply (authenticate_known _ _ (mkSession id name) Hne), lookup_insert_eq.
  - destruct (register_session _ _ _ _ _ _ _ _ _ Hbody) as [_ ->].
    apply (authenticate_known _ _ (mkSession id name) Hne), lookup_insert_eq.
Qed.

(** X3: [register] answers 201 exactly when the body validates, the store
    has no user under the validated [username] and [createUser] resolves;
    [createUser] is called only after the store answered that the name is
    free; every run that does not answer 201 leaves the session registry as
    it was. *)
Theorem register_outcome
    (parse : jsval -> option json)
    (getUserByUsername : jsval -> StoreCall (option Account))
    (createUser : json -> StoreCall User)
    (r36 : string) (body : jsval) (sessions : gmap string Session) :
  let out := fst (register parse getUserByUsername createUser r36 body sessions) in
  let sessions' := snd (register parse getUserByUsername createUser r36 body sessions) in
  (o_status out = 201 <->
   exists userData username newUser,
     parse body = Some userData /\
     get_prop userData "username" = inr username /\
     getUserByUsername username = Resolves None /\
     createUser userData = Resolves newUser) /\
  (forall userData, OpCreateUser userData ∈ o_calls out ->
     parse body = Some userData /\
     exists username,
       get_prop userData "username" = inr username /\
       getUserByUsername username = Resolves None) /\
  (parse body = None -> o_status out = 400 /\ o_calls out = []) /\
  (o_status out ≠ 201 -> sessions' = sessions).
Proof.
  cbv zeta. unfold register.
  destruct (parse body) as [userData|] eqn:Hparse; cbn.
  2:{ split; [split; [done|by intros (? & ? & ? & [=] & _)]|].
      split; [intros ? H; by apply elem_of_nil in H|done]. }
  destruct (get_prop userData "username") as [e|username] eqn:Hn; cbn.
  { split; [split; [done|]|].
    - intros (? & ? & ? & [= <-] & Hn' & _). congruence.
    - split; [intros ? H; by apply elem_of_nil in H|done]. }
  destruct (getUserByUsername username) as [e|[user|]] eqn:Hu; cbn.
  - split; [split; [done|]|].
    + intros (? & ? & ? & [= <-] & Hn' & Hu' & _). congruence.
    + split; [|done]. intros ? H.
      apply list_elem_of_singleton in H. done.
  - split; [split; [done|]|].
    + intros (? & ? & ? & [= <-] & Hn' & Hu' & _). congruence.
    + split; [|done]. intros ? H.
      apply list_elem_of_singleton in H. done.
  - assert (Hcalls : forall d,
      OpCreateUser d ∈ [OpGetUserByUsername username; OpCreateUser userData] ->
      Some userData = Some d /\
      exists username0, get_prop d "username" = inr username0 /\
                        getUserByUsername username0 = Resolves None).
    { intros d H. apply elem_of_cons in H as [H|H]; [done|].
      apply list_elem_of_singleton in H. injection H as ->. eauto. }
    destruct (createUser userData) as [e|newUser] eqn:Hc; cbn.
    + split; [split; [done|]|].
      * intros (? & ? & ? & [= <-] & _ & _ & Hc'). congruence.
      * split; [exact Hcalls|done].
    + split; [split; [by eauto 10|done]|]. split; [exact Hcalls|done].
Qed.

(** X4: a session survives every later [login], [register] and auto-login
    that does not draw the same session id: for each other token the
    answer of [authenticate] is the same before and after. *)
Theorem other_sessions_survive
    (parse : jsval -> option json)
    (getUserByUsername : jsval -> StoreCall (option Account))
    (createUser : json -> StoreCall User)
    (users : list User) (h : option string)
    (r36 : string) (body : jsval) (sessions : gmap string Session)
    (token : string) :
  token ≠ new_session_id r36 ->
  authenticate (snd (login getUserByUsername r36 body sessions)) (Some token)
  = authenticate sessions (Some token) /\
  authenticate (snd (register parse getUserByUsername createUser r36 body sessions))
               (Some token)
  = authenticate sessions (Some token) /\
  authenticate (snd (auto_login users r36 h sessions)) (Some token)
  = authenticate sessions (Some token).
Proof.
  intros Hne.
  assert (Hins : forall s,
    authenticate (<[new_session_id r36 := s]> sessions) (Some token)
    = authenticate sessions (Some token)).
  { intros s. unfold authenticate, sessions_get.
    by rewrite lookup_insert_ne. }
  split; [|split].
  - unfold login. destruct body as [data|]; cbn; [|done].
    destruct (get_prop data "username") as [e|username]; cbn; [done|].
    destruct (get_prop data "password") as [e|given]; cbn; [done|].
    destruct (negb (truthy username) || negb (truthy given)); cbn; [done|].
    destruct (getUserByUsername username) as [e|[user|]]; cbn; [done| |done].
    destruct (password_differs (password user) given); cbn; [done|]. apply Hins.
  - unfold register. destruct (parse body) as [userData|]; cbn; [|done].
    destruct (get_prop userData "username") as [e|username]; cbn; [done|].
    destruct (getUserByUsername username) as [e|[user|]]; cbn; [done|done|].
    destruct (createUser userData) as [e|newUser]; cbn; [done|]. apply Hins.
  - unfold auto_login. destruct (header_falsy h); [|done].
    destruct users as [|u rest]; [done|]. apply Hins.
Qed.

(** X5: [authenticate] lets a request pass with a defined user id exactly
    when its token is the non-empty key of a stored session, and then
    [req.user] is that session's user; it answers 401 exactly when the
    header is absent or empty, or the token is neither the key of a session
    nor a property name of [Object.prototype]. *)
Theorem authenticate_decision
    (sessions : gmap string Session) (h : option string) :
  (forall id name,
     authenticate sessions h = Next {| ru_id := Some id; ru_username := name |} <->
     exists token s,
       h = Some token /\ token ≠ "" /\ sessions !! token = Some s /\
       userId s = id /\ name = Some (username s)) /\
  (authenticate sessions h = Respond 401 "Unauthorized" <->
   header_falsy h = true \/
   exists token,
     h = Some token /\ sessions !! token = None /\
     token ∉ object_prototype_keys).
Proof.
  unfold authenticate, sessions_get, header_falsy.
  destruct h as [token|].
  2:{ split; [|by split; auto].
      intros id name. split; [done|by intros (? & ? & [=] & _)]. }
  destruct (decide (token = "")) as [->|Hne].
  { cbn. split; [|by split; auto]. intros id name.
    split; [done|]. by intros (? & ? & [= <-] & ? & _). }
  rewrite (bool_decide_eq_false_2 (token = "")) by done. cbn.
  destruct (sessions !! token) as [s|] eqn:Hl; cbn.
  - split.
    + intros id name. split.
      * intros [= <- <-]. by exists token, s.
      * intros (? & s' & [= <-] & _ & Hs & <- & ->).
        rewrite Hl in Hs. by injection Hs as <-.
    + split; [done|]. intros [H|(? & [= <-] & Hs & _)]; [done|congruence].
  - case_bool_decide as Hk; cbn.
    + split.
      * intros id name. split; [done|].
        intros (? & ? & [= <-] & _ & Hs & _). congruence.
      * split; [done|]. by intros [H|(? & [= <-] & _ & ?)].
    + split.
      * intros id name. split; [done|].
        intros (? & ? & [= <-] & _ & Hs & _). congruence.
      * split; [|done]. intros _. right. by exists token.
Qed.

(** X6: a request without the header on a guarded route.  With no user in
    the store it is answered 401 and the registry is as before.  With users
    it gets a session for the first one, stored under the generated id: it
    goes on as that user when the id is not the empty text, and is answered
    401 when it is.  A request with a non-empty header is left to
    [authenticate] as it came. *)
Theorem guard_decision
    (users : list User) (r36 : string) (h : option string)
    (sessions : gmap string Session) :
  (header_falsy h = false ->
   guard users r36 h sessions = (authenticate sessions h, sessions)) /\
  (header_falsy h = true -> users = [] ->
   guard users r36 h sessions = (Respond 401 "Unauthorized", sessions)) /\
  (header_falsy h = true ->
   forall u rest, users = u :: rest ->
     snd (guard users r36 h sessions)
     = <[new_session_id r36 := mkSession (user_id u) (user_name u)]> sessions /\
     fst (guard users r36 h sessions)
     = if bool_decide (new_session_id r36 = "")
       then Respond 401 "Unauthorized"
       else Next {| ru_id := Some (user_id u); ru_username := Some (user_name u) |}).
Proof.
  unfold guard, auto_login. split; [|split].
  - by intros ->.
  - intros Hh ->. rewrite Hh. f_equal. destruct h as [s|]; [|done].
    unfold authenticate. cbn in Hh. by rewrite Hh.
  - intros -> u rest ->. split; [done|]. cbn [fst].
    case_bool_decide as He.
    + unfold authenticate. by rewrite He.
    + by apply (authenticate_known _ _ (mkSession (user_id u) (user_name u)) He),
         lookup_insert_eq.
Qed.

Lemma substring_length (n m : nat) (s : string) :
  String.length (String.substring n m s) = Nat.min m (String.length s - n).
Proof.
  revert n m. induction s as [|c s IH]; intros [|n] [|m];
    cbn [String.substring String.length]; rewrite ?IH; lia.
Qed.

(** X7: a generated session id is the text that follows the first two
    characters of [Math.random().toString(36)], cut after 13 characters:
    its [i]-th character is character [2 + i] of that text, it has at most
    13 characters, and it is empty exactly when that text has no more than
    two characters. *)
Theorem new_session_id_length (r36 : string) :
  String.length (new_session_id r36) = Nat.min 13 (String.length r36 - 2) /\
  (forall i, i < 13 ->
     String.get i (new_session_id r36) = String.get (2 + i) r36) /\
  String.length (new_session_id r36) <= 13 /\
  (new_session_id r36 = "" <-> String.length r36 <= 2).
Proof.
  unfold new_session_id. rewrite substring_length.
  split; [done|]. split.
  { intros i Hi. rewrite (String.substring_correct1 r36 2 13 i Hi).
    by rewrite Nat.add_comm. }
  split; [lia|]. split.
  - intros H. apply (f_equal String.length) in H.
    rewrite substring_length in H. cbn [String.length] in H. lia.
  - intros H. destruct (String.substring 2 13 r36) as [|c s] eqn:Hs; [done|].
    apply (f_equal String.length) in Hs. rewrite substring_length in Hs.
    cbn [String.length] in Hs. lia.
Qed.

(** ** Real-time channel: every payload, every socket *)

Section channel.
Variable sessions : gmap string Session.
Variable clock : nat -> string.
Variable ws : nat.

(** One call of the callback leaves the outbox of its socket as it was or
    adds the frame built from the event; it touches no other outbox. *)
Lemma broadcast_to_at_most_one data client st :
  frames_of (snd (broadcast_to sessions clock ws data client st)) client
  = frames_of st client \/
  exists timestamp f,
    broadcast_frame sessions data timestamp = inr f /\
    frames_of (snd (broadcast_to sessions clock ws data client st)) client
    = (frames_of st client ++ [f])%list.
Proof.
  unfold broadcast_to. case_bool_decide as Hne; [|by left].
  unfold mbind, ws_bind, new_Date, ws_lift.
  destruct (frame_members sessions data) as [e|members] eqn:Hm; [by left|].
  unfold ws_send; cbn. case_bool_decide; [by left|]. right.
  exists (clock (date_calls st)), (frame_of_members members (clock (date_calls st))).
  split; [by apply broadcast_frame_members|].
  unfold frames_of at 1; cbn. by rewrite lookup_insert_eq.
Qed.

Lemma forEach_at_most_one data (l : list nat) : forall st c,
  NoDup l ->
  frames_of (snd (forEach l (broadcast_to sessions clock ws data) st)) c
  = frames_of st c \/
  exists timestamp f,
    broadcast_frame sessions data timestamp = inr f /\
    frames_of (snd (forEach l (broadcast_to sessions clock ws data) st)) c
    = (frames_of st c ++ [f])%list.
Proof.
  induction l as [|x l IH]; intros st c Hnd; [by left|].
  apply NoDup_cons in Hnd as [Hx Hnd].
  cbn [forEach]. unfold mbind, ws_bind.
  pose proof (broadcast_to_at_most_one data x st) as Hone.
  destruct (broadcast_to_frame sessions clock ws data x st) as [_ Hoth].
  destruct (broadcast_to sessions clock ws data x st) as [[e|u] st1] eqn:Hcb;
    cbn [snd] in *.
  - destruct (decide (c = x)) as [->|Hc]; [exact Hone|].
    left. apply Hoth. by left.
  - destruct (decide (c = x)) as [->|Hc].
    + destruct (forEach_frame sessions clock ws data l st1) as [_ Hrest].
      rewrite (Hrest x) by (by left). exact Hone.
    + rewrite <- (Hoth c) by (by left). by apply IH.
Qed.

End channel.

(** X8: whatever the payload and whatever [send] does, the message handler
    returns normally: no exception leaves it.  It neither adds nor removes a
    socket, and it hands nothing to the sender or to a socket that is not
    in [wss.clients]. *)
Theorem on_message_contained
    (sessions : gmap string Session) (clock : nat -> string) (ws : nat)
    (text : string) (parsed : option json) (st : WsState) :
  fst (on_message sessions clock ws text parsed st) = inr tt /\
  same_sockets st (snd (on_message sessions clock ws text parsed st)) /\
  forall c, c ∉ clients st \/ c = ws ->
    frames_of (snd (on_message sessions clock ws text parsed st)) c
    = frames_of st c.
Proof.
  destruct (well_formed_message parsed) eqn:Hwf.
  - destruct parsed as [data|]; [|done].
    destruct (well_formed_is_object data Hwf) as [fields ->].
    rewrite (on_message_object sessions clock ws text fields st Hwf).
    set (st0 := snd (console_write ("Received message: " ++ text) st)).
    destruct (forEach_frame sessions clock ws (JObj fields) (clients st) st0)
      as [Hsock Hfr].
    destruct (forEach (clients st) _ st0) as [[e|[]] st']; cbn in *; done.
  - unfold on_message, try_catch, on_message_body.
    unfold mbind, ws_bind, mret, ws_ret, ws_lift, ws_throw, JSON_parse. cbn.
    destruct parsed as [data|]; cbn; [|done].
    unfold well_formed_message in Hwf.
    destruct (get_prop data "type") as [e|ty]; cbn; [done|].
    rewrite Hwf. done.
Qed.

(** X9: one inbound payload adds at most one frame to any outbox, and a
    frame it adds is the one built from that payload. *)
Theorem on_message_at_most_one_frame
    (sessions : gmap string Session) (clock : nat -> string) (ws : nat)
    (text : string) (parsed : option json) (st : WsState) (c : nat) :
  NoDup (clients st) ->
  frames_of (snd (on_message sessions clock ws text parsed st)) c
  = frames_of st c \/
  exists data timestamp f,
    parsed = Some data /\
    well_formed_message parsed = true /\
    broadcast_frame sessions data timestamp = inr f /\
    frames_of (snd (on_message sessions clock ws text parsed st)) c
    = (frames_of st c ++ [f])%list.
Proof.
  intros Hnd. destruct (well_formed_message parsed) eqn:Hwf.
  - destruct parsed as [data|]; [|done].
    destruct (well_formed_is_object data Hwf) as [fields ->].
    rewrite (on_message_object sessions clock ws text fields st Hwf).
    set (st0 := snd (console_write ("Received message: " ++ text) st)).
    destruct (forEach_at_most_one sessions clock ws (JObj fields) (clients st)
                st0 c Hnd) as [Hsame|(ts & f & Hf & Hadd)].
    + left. destruct (forEach (clients st) _ st0) as [[e|[]] st']; cbn in *; done.
    + right. exists (JObj fields), ts, f. split; [done|]. split; [done|].
      split; [done|].
      destruct (forEach (clients st) _ st0) as [[e|[]] st']; cbn in *; done.
  - left. unfold on_message, try_catch, on_message_body.
    unfold mbind, ws_bind, mret, ws_ret, ws_lift, ws_throw, JSON_parse. cbn.
    destruct parsed as [data|]; cbn; [|done].
    unfold well_formed_message in Hwf.
    destruct (get_prop data "type") as [e|ty]; cbn; [done|].
    rewrite Hwf. done.
Qed.

(** X10: whether a broadcast frame is built, and the identity it carries.
    No frame is built exactly when the event's [sessionId] is an object with
    an own property [toString], or an array that holds such a value: the
    key conversion throws.  Otherwise the frame has the event's [content],
    unchanged.  It names a user exactly when [sessionId] is truthy and, as
    a property key, names a stored session, and then it carries that
    session's user id and name; it says "system" and "System" exactly when
    [sessionId] is falsy or names neither a session nor a property of
    [Object.prototype]. *)
Theorem broadcast_frame_identity
    (sessions : gmap string Session) (fields : list (string * json))
    (timestamp : string) :
  let sid := assoc_get "sessionId" fields in
  ((exists e, broadcast_frame sessions (JObj fields) timestamp = inl e) <->
   exists v, sid = Some v /\ unprintable v = true) /\
  (forall f, broadcast_frame sessions (JObj fields) timestamp = inr f ->
     exists senderId senderName,
       f = MessageFrame senderId senderName (assoc_get "content" fields) timestamp /\
       (forall id,
          senderId = SenderUser id <->
          exists v key s, sid = Some v /\ truthy sid = true /\
                          to_key v = inr key /\
                          sessions !! key = Some s /\ userId s = id) /\
       (forall id, senderId = SenderUser id ->
          exists v key s, sid = Some v /\ to_key v = inr key /\
                          sessions !! key = Some s /\
                          senderName = Some (username s)) /\
       (senderId = SenderSystem <->
        truthy sid = false \/
        exists v key, sid = Some v /\ to_key v = inr key /\
                      sessions !! key = None /\
                      key ∉ object_prototype_keys) /\
       (senderId = SenderSystem -> senderName = Some "System")).
Proof.
  cbv zeta. unfold broadcast_frame, frame_members, get_prop.
  unfold mbind, mret, js_bind, js_ret.
  destruct (assoc_get "sessionId" fields) as [v|] eqn:Hsid.
  2:{ destruct (sender_falsy sessions None eq_refl) as [-> ->]. split.
      - split; [by intros [e ?] | by intros (? & [=] & _)].
      - intros f [= <-]. eexists _, _. split; [reflexivity|].
        split; [|split; [done|split; [|done]]].
        + intros id. split; [done|]. by intros (? & ? & ? & [=] & _).
        + split; [by left|done]. }
  destruct (truthy (Some v)) eqn:Ht.
  2:{ destruct (sender_falsy sessions (Some v) Ht) as [-> ->].
      assert (Hp : unprintable v = false).
      { destruct v as [|b|r|s|items|fs]; try done. }
      split.
      - split; [by intros [e ?]|]. intros (? & [= <-] & Hu). congruence.
      - intros f [= <-]. eexists _, _. split; [reflexivity|].
        split; [|split; [done|split; [|done]]].
        + intros id. split; [done|]. by intros (? & ? & ? & _ & [=] & _).
        + split; [by left|done]. }
  pose proof (to_key_unprintable v) as Hv.
  destruct (unprintable v) eqn:Hu.
  { destruct (sender_throws sessions v _ Ht Hv) as [-> _]. split.
    - split; [intros _; by exists v | by eexists].
    - done. }
  destruct Hv as [key Hk].
  destruct (sender_at_key sessions v key Ht Hk) as [-> ->]. split.
  { split; [by intros [e ?]|]. intros (? & [= <-] & ?). congruence. }
  intros f [= <-]. eexists _, _. split; [reflexivity|].
  unfold sessions_get.
  destruct (sessions !! key) as [s|] eqn:Hl; cbn.
  - split; [|split; [|split; [|done]]].
    + intros id. split.
      * intros [= <-]. by exists v, key, s.
      * intros (? & ? & ? & [= <-] & _ & Hk' & Hs & <-).
        rewrite Hk in Hk'. injection Hk' as <-. rewrite Hl in Hs.
        by injection Hs as <-.
    + intros id _. by exists v, key, s.
    + split; [done|]. intros [H|(? & ? & [= <-] & Hk' & Hs & _)]; [done|].
      rewrite Hk in Hk'. injection Hk' as <-. congruence.
  - case_bool_decide as Hin; cbn.
    + split; [|split; [done|split; [|done]]].
      * intros id. split; [done|].
        intros (? & ? & ? & [= <-] & _ & Hk' & Hs & _).
        rewrite Hk in Hk'. injection Hk' as <-. congruence.
      * split; [done|]. intros [H|(? & ? & [= <-] & Hk' & _ & Hnotin)]; [done|].
        rewrite Hk in Hk'. injection Hk' as <-. done.
    + split; [|split; [done|split; [|done]]].
      * intros id. split; [done|].
        intros (? & ? & ? & [= <-] & _ & Hk' & Hs & _).
        rewrite Hk in Hk'. injection Hk' as <-. congruence.
      * split; [|done]. intros _. right. by exists v, key.
Qed.

(** X11: a new connection.  When [send] works, the socket is in
    [wss.clients], its outbox has gained the welcome frame and nothing else,
    and no other outbox has changed.  When [send] raises, the error leaves
    the callback: here nothing catches it. *)
Theorem on_connection_welcome
    (clock : nat -> string) (ws : nat) (st : WsState) :
  (ws ∉ send_throws st ->
   exists st',
     on_connection clock ws st = (inr tt, st') /\
     ws ∈ clients st' /\
     (forall c, c ∈ clients st -> c ∈ clients st') /\
     frames_of st' ws
     = (frames_of st ws
        ++ [SystemFrame "Connected to chat server" (clock (date_calls st))])%list /\
     forall c, c ≠ ws -> frames_of st' c = frames_of st c) /\
  (ws ∈ send_throws st ->
   exists e st', on_connection clock ws st = (inl e, st') /\
                 outbox st' = outbox st).
Proof.
  unfold on_connection, clients_add, console_write, new_Date, ws_send.
  unfold mbind, ws_bind. cbn. split; intros Hs.
  - rewrite bool_decide_eq_false_2 by done. eexists. split; [done|]. cbn.
    split; [|split; [|split]].
    + case_bool_decide; [done|]. apply elem_of_app. right. by left.
    + intros c Hc. case_bool_decide; [done|]. apply elem_of_app. by left.
    + unfold frames_of at 1; cbn. by rewrite lookup_insert_eq.
    + intros c Hc. unfold frames_of at 1; cbn. by rewrite lookup_insert_ne.
  - rewrite bool_decide_eq_true_2 by done. by eexists _, _.
Qed.

(** ** Upload route: what every request gets *)


Lemma storage_after_lookup_ne (c : Content) data st id :
  id ≠ c_id c ->
  contents (storage_after c data st) !! id = contents st !! id.
Proof. intros Hne. unfold storage_after; cbn. by rewrite !lookup_insert_ne. Qed.

(** The store after any upload request: as before, or with the new record
    created and patched. *)
Lemma handle_upload_storage users r36 sessions req summarizer rid w :
  storage (handle_upload users r36 sessions req summarizer rid w) = storage w \/
  exists user file data,
    storage (handle_upload users r36 sessions req summarizer rid w)
    = storage_after (created_content user file w) data (storage w).
Proof.
  unfold handle_upload.
  destruct (fst (upload_route users r36 sessions req)) as [[status body]|[user file]];
    [by left|].
  destruct file as [f|]; [|by left].
  right. exists user, f.
  destruct (decide (mimetype f = "application/pdf")) as [Hpdf|Hv].
  - destruct summarizer as [text|error].
    + rewrite run_task_pdf_text by done. by eexists.
    + rewrite run_task_pdf_error by done. by eexists.
  - rewrite run_task_video by done. by eexists.
Qed.

(** X13: an upload request, whatever becomes of it, leaves every record
    that was in a well-formed store exactly as it was, adds at most one
    record, and leaves the store well-formed. *)
Theorem upload_keeps_other_records
    (users : list User) (r36 : string) (sessions : gmap string Session)
    (req : UploadRequest) (summarizer : Summarized) (rid : nat) (w : World) :
  storage_wf (storage w) ->
  let w' := handle_upload users r36 sessions req summarizer rid w in
  (forall id c, contents (storage w) !! id = Some c ->
                contents (storage w') !! id = Some c) /\
  (forall id, id ≠ contentIdCounter (storage w) ->
              contents (storage w') !! id = contents (storage w) !! id) /\
  contentIdCounter (storage w) <= contentIdCounter (storage w')
    <= S (contentIdCounter (storage w)) /\
  storage_wf (storage w').
Proof.
  intros Hwf w'. subst w'.
  destruct (handle_upload_storage users r36 sessions req summarizer rid w)
    as [->|(user & file & data & ->)].
  { split; [done|]. split; [done|]. split; [lia|done]. }
  set (c := created_content user file w).
  assert (Hid : c_id c = contentIdCounter (storage w)) by done.
  split; [|split; [|split]].
  - intros id c0 Hl. rewrite storage_after_lookup_ne; [done|].
    destruct (Hwf id c0 Hl) as [_ Hlt]. rewrite Hid. lia.
  - intros id Hne. apply storage_after_lookup_ne. by rewrite Hid.
  - cbn. lia.
  - intros id c0. destruct (decide (id = c_id c)) as [->|Hne].
    + rewrite lookup_storage_after. intros [= <-]. cbn. split; [done|]. lia.
    + rewrite storage_after_lookup_ne by done. intros Hl.
      destruct (Hwf id c0 Hl) as [? ?]. split; [done|]. cbn. lia.
Qed.

(** X14: multer's gate and the handler's filing agree.  A file part goes
    through exactly when its MIME type is application/pdf or video/mp4 and
    it has at most 104857600 bytes; a file that went through is filed as
    [pdf] exactly when its type is application/pdf and as [video] exactly
    when it is video/mp4. *)
Theorem multer_gate (part : option UploadedFile) (f : UploadedFile) :
  (upload_single part = MulterNext (Some f) <->
   part = Some f /\
   (mimetype f = "application/pdf" \/ mimetype f = "video/mp4") /\
   (size f <= 104857600)%N) /\
  (upload_single part = MulterNext (Some f) ->
   (fileType_of f = pdf <-> mimetype f = "application/pdf") /\
   (fileType_of f = video <-> mimetype f = "video/mp4")).
Proof.
  assert (Hallowed : forall m,
    m ∈ allowedMimes <-> m = "application/pdf" \/ m = "video/mp4").
  { intros m. unfold allowedMimes. rewrite !elem_of_cons, elem_of_nil.
    split; [intros [?|[?|[]]]; auto | intros [?|?]; auto]. }
  assert (Hgate : upload_single part = MulterNext (Some f) <->
    part = Some f /\
    (mimetype f = "application/pdf" \/ mimetype f = "video/mp4") /\
    (size f <= 104857600)%N).
  { unfold upload_single, fileFilter. destruct part as [g|].
    2:{ split; [done|]. by intros [[=] _]. }
    case_bool_decide as Hm.
    - destruct (fileSizeLimit <? size g)%N eqn:Hs.
      + split; [done|]. intros ([= ->] & _ & Hle).
        apply N.ltb_lt in Hs. unfold fileSizeLimit in Hs. lia.
      + apply N.ltb_ge in Hs. unfold fileSizeLimit in Hs. split.
        * intros [= ->]. split; [done|]. split; [by apply Hallowed|lia].
        * by intros ([= ->] & _).
    - split; [done|]. intros ([= ->] & Hf & _). exfalso. by apply Hm, Hallowed. }
  split; [exact Hgate|]. intros Hok. apply Hgate in Hok as (_ & Hm & _).
  unfold fileType_of. case_bool_decide as Hp.
  - split; [done|]. split; [done|]. intros Hv. rewrite Hv in Hp. done.
  - split; [done|]. split; [|done]. intros _. by destruct Hm.
Qed.

(** X15: processing changes the status and the summary of a record and
    nothing else: after an accepted upload the stored record still has the
    id it was created with, the user id of the request, the original file
    name, multer's path, the size in bytes and the type it was filed
    under. *)
Theorem upload_keeps_metadata
    users r36 sessions req user file summarizer rid w :
  fst (upload_route users r36 sessions req) = inr (user, Some file) ->
  let id := contentIdCounter (storage w) in
  let w' := handle_upload users r36 sessions req summarizer rid w in
  exists c',
    contents (storage w') !! id = Some c' /\
    c_id c' = id /\ c_userId c' = ru_id user /\
    c_filename c' = originalname file /\ c_filePath c' = path file /\
    c_fileSize c' = size file /\ c_type c' = fileType_of file /\
    file_part req = Some file.
Proof.
  intros Hacc id w'. subst id w'.
  destruct (upload_route_accepted_file _ _ _ _ _ _ Hacc) as (Hpart & _ & _).
  rewrite (handle_upload_accepted _ _ _ _ _ _ _ _ _ Hacc).
  change (contentIdCounter (storage w)) with (c_id (created_content user file w)).
  destruct (decide (mimetype file = "application/pdf")) as [Hpdf|Hv].
  - destruct summarizer as [text|error].
    + rewrite run_task_pdf_text by done. cbn [snd storage].
      rewrite lookup_storage_after. by eexists.
    + rewrite run_task_pdf_error by done. cbn [snd storage].
      rewrite lookup_storage_after. by eexists.
  - rewrite run_task_video by done. cbn [snd storage].
    rewrite lookup_storage_after. by eexists.
Qed.

(** ** Upload route: what the trace holds of each request *)

Lemma count_events_app p (a b : list (nat * Event)) :
  count_events p (a ++ b) = count_events p a + count_events p b.
Proof. induction a as [|e a IH]; cbn; [done|]. rewrite IH. lia. Qed.

Lemma count_events_emit p rid e w :
  count_events p (trace (emit rid e w))
  = count_events p (trace w) + (if p (rid, e) then 1 else 0).
Proof. unfold emit; cbn. rewrite count_events_app. cbn. lia. Qed.

Lemma count_events_do_update p rid c data w :
  count_events p (trace (do_update rid c data w))
  = count_events p (trace w) + (if p (rid, EvUpdate (c_id c) data) then 1 else 0).
Proof. unfold do_update. by rewrite count_events_emit. Qed.

(** A step of request [rid] adds nothing to the counts of another
    request. *)
Lemma task_step_counts_other rid rid' t w :
  rid' ≠ rid ->
  count_events (is_response rid') (trace (snd (task_step rid t w)))
  = count_events (is_response rid') (trace w) /\
  count_events (is_summarize rid') (trace (snd (task_step rid t w)))
  = count_events (is_summarize rid') (trace w).
Proof.
  intros Hne. unfold task_step. destruct t as [user file summarizer pc].
  destruct pc as [|f c|c text|c error|c|c|created]; cbn [t_pc t_file t_summarizer].
  - destruct file as [file|]; cbn [snd].
    + destruct (createContent _ _) as [content st]. cbn [snd].
      rewrite !count_events_emit. cbn. lia.
    + rewrite !count_events_emit. cbn.
      rewrite bool_decide_eq_false_2 by done. lia.
  - destruct summarizer; cbn [snd]; rewrite !count_events_emit; cbn;
      rewrite bool_decide_eq_false_2 by done; lia.
  - cbn [snd]. rewrite !count_events_do_update. cbn. lia.
  - cbn [snd]. rewrite !count_events_do_update, !count_events_emit. cbn. lia.
  - cbn [snd]. rewrite !count_events_do_update. cbn. lia.
  - cbn [snd]. rewrite !count_events_emit. cbn.
    rewrite bool_decide_eq_false_2 by done. lia.
  - done.
Qed.

(** A step of request [rid] keeps its own counts in line with its state. *)
Lemma task_step_counts_own rid t w :
  branch_typed t ->
  count_events (is_response rid) (trace w) = (if finished t then 1 else 0) ->
  count_events (is_summarize rid) (trace w) = (if summarized t then 1 else 0) ->
  count_events (is_response rid) (trace (snd (task_step rid t w)))
  = (if finished (fst (task_step rid t w)) then 1 else 0) /\
  count_events (is_summarize rid) (trace (snd (task_step rid t w)))
  = (if summarized (fst (task_step rid t w)) then 1 else 0) /\
  branch_typed (fst (task_step rid t w)).
Proof.
  unfold task_step, branch_typed, finished, summarized.
  destruct t as [user file summarizer pc].
  destruct pc as [|f c|c text|c error|c|c|created];
    cbn [t_pc t_file t_summarizer]; intros Hty Hr Hs.
  - destruct file as [file|]; cbn [fst snd at_pc t_pc].
    + unfold createContent, emit, set_storage. cbn.
      rewrite !count_events_app, Hr, Hs. cbn.
      destruct (fileType_of file) eqn:Hft; cbn; done.
    + rewrite !count_events_emit, Hr, Hs. cbn.
      by rewrite bool_decide_eq_true_2.
  - destruct summarizer; cbn [fst snd at_pc t_pc];
      rewrite !count_events_emit, Hr, Hs; cbn;
      by rewrite bool_decide_eq_true_2.
  - cbn [fst snd at_pc t_pc]. rewrite !count_events_do_update, Hr, Hs. cbn.
    by rewrite bool_decide_eq_true_2.
  - cbn [fst snd at_pc t_pc].
    rewrite !count_events_do_update, !count_events_emit, Hr, Hs. cbn.
    by rewrite bool_decide_eq_true_2.
  - cbn [fst snd at_pc t_pc]. rewrite !count_events_do_update, Hr, Hs. cbn.
    rewrite bool_decide_eq_false_2; [done|]. by rewrite Hty.
  - cbn [fst snd at_pc t_pc]. rewrite !count_events_emit, Hr, Hs. cbn.
    rewrite bool_decide_eq_true_2 by done. split; [done|]. split; [lia|done].
  - done.
Qed.

Lemma counts_inv_step s s' : counts_inv s -> sys_step s s' -> counts_inv s'.
Proof.
  intros Hinv [t Hpc | rid t Hrid] rid'; cbn [world tasks].
  - specialize (Hinv rid').
    destruct (tasks s !! rid') as [t0|] eqn:Hl.
    + by rewrite (lookup_app_l_Some _ _ _ _ Hl).
    + apply lookup_ge_None in Hl.
      destruct (decide (rid' = length (tasks s))) as [->|Hne].
      * rewrite lookup_app_r by lia. rewrite Nat.sub_diag. cbn.
        unfold finished, summarized, branch_typed. rewrite Hpc.
        destruct Hinv. done.
      * rewrite lookup_ge_None_2; [done|]. rewrite length_app. cbn. lia.
  - destruct (decide (rid' = rid)) as [->|Hne].
    + rewrite (tasks_insert_same _ _ _ _ Hrid).
      specialize (Hinv rid). rewrite Hrid in Hinv.
      destruct Hinv as (Hr & Hs & Hty). by apply task_step_counts_own.
    + rewrite list_lookup_insert_ne by done.
      destruct (task_step_counts_other rid rid' t (world s) Hne) as [-> ->].
      apply Hinv.
Qed.

Lemma reachable_counts s : reachable s -> counts_inv s.
Proof.
  induction 1 as [st Hwf | s s' _ IH Hstep].
  - intros rid. done.
  - by eapply counts_inv_step.
Qed.

(** X16: in every state the interleaved uploads can reach, a request has
    been answered at most once; it has been answered exactly when its
    handler has returned, and a request that has not come in has no
    answer. *)
Theorem each_request_answered_once (s : System) (rid : nat) :
  reachable s ->
  count_events (is_response rid) (trace (world s)) <= 1 /\
  (forall t, tasks s !! rid = Some t ->
     (count_events (is_response rid) (trace (world s)) = 1 <->
      exists created, t_pc t = Finished created)) /\
  (tasks s !! rid = None ->
   count_events (is_response rid) (trace (world s)) = 0).
Proof.
  intros Hreach. pose proof (reachable_counts s Hreach rid) as Hinv.
  destruct (tasks s !! rid) as [t|].
  - destruct Hinv as (Hr & _ & _). rewrite Hr. unfold finished.
    split; [by destruct (t_pc t); lia|]. split; [|done].
    intros t0 [= <-]. destruct (t_pc t); split;
      try done; try (by intros [? [=]]); by eauto.
  - destruct Hinv as [Hr _]. rewrite Hr. split; [lia|]. done.
Qed.

(** X17: in every state the interleaved uploads can reach, a request has
    called the summarizer at most once; never when its record is filed as
    a video; and exactly once when its handler has returned with a record
    filed as a PDF. *)
Theorem summarizer_called_at_most_once (s : System) (rid : nat) :
  reachable s ->
  count_events (is_summarize rid) (trace (world s)) <= 1 /\
  (forall t c, tasks s !! rid = Some t -> content_of t = Some c ->
     c_type c = video ->
     count_events (is_summarize rid) (trace (world s)) = 0) /\
  (forall t c, tasks s !! rid = Some t -> t_pc t = Finished (Some c) ->
     c_type c = pdf ->
     count_events (is_summarize rid) (trace (world s)) = 1) /\
  (forall t, tasks s !! rid = Some t -> content_of t = None ->
     count_events (is_summarize rid) (trace (world s)) = 0).
Proof.
  intros Hreach. pose proof (reachable_counts s Hreach rid) as Hinv.
  destruct (tasks s !! rid) as [t|].
  - destruct Hinv as (_ & Hs & Hty). rewrite Hs.
    split; [by destruct (summarized t); lia|].
    unfold summarized, branch_typed, content_of in *.
    split; [|split].
    + intros t0 c [= <-] Hc Hv.
      destruct (t_pc t) as [|f c1|c1 text|c1 error|c1|c1|[c1|]];
        try done; injection Hc as ->; try congruence;
        rewrite bool_decide_eq_false_2; congruence.
    + intros t0 c [= <-] Hpc Hp. rewrite Hpc.
      by rewrite bool_decide_eq_true_2.
    + intros t0 [= <-] Hc.
      destruct (t_pc t) as [|f c1|c1 text|c1 error|c1|c1|[c1|]]; done.
  - destruct Hinv as [_ Hs]. rewrite Hs. split; [lia|]. done.
Qed.

(** ** Names of stored files *)

Lemma pretty_N_go_no_dash (x : N) : forall s,
  no_dash s -> no_dash (pretty_N_go x s).
Proof.
  induction (N.lt_wf_0 x) as [x _ IH]; intros s Hs.
  destruct (decide (x = 0)%N) as [->|Hx]; [by rewrite pretty_N_go_0|].
  rewrite pretty_N_go_step by lia. apply IH.
  - apply N.div_lt; lia.
  - split; [|done]. unfold pretty_N_char.
    by repeat case_match.
Qed.

Lemma pretty_N_no_dash (x : N) : no_dash (pretty x).
Proof.
  unfold pretty, pretty_N. case_decide.
  - by cbn.
  - by apply pretty_N_go_no_dash.
Qed.

(** Two texts without [-], each followed by [-] and a rest, are equal
    only when both parts are. *)
Lemma split_at_dash (a a' s s' : string) :
  no_dash a -> no_dash a' ->
  a +:+ "-" +:+ s = a' +:+ "-" +:+ s' -> a = a' /\ s = s'.
Proof.
  change ("-" +:+ s) with (String "-" s).
  change ("-" +:+ s') with (String "-" s').
  revert a'. induction a as [|c a IH]; intros [|c' a'] Ha Ha' H.
  - change (String "-" s = String "-" s') in H. by injection H as ->.
  - change (String "-" s = String c' (a' +:+ String "-" s')) in H.
    injection H as <- _. by destruct Ha'.
  - change (String c (a +:+ String "-" s) = String "-" s') in H.
    injection H as -> _. by destruct Ha.
  - change (String c (a +:+ String "-" s) = String c' (a' +:+ String "-" s')) in H.
    injection H as -> Hrest. destruct Ha as [_ Ha], Ha' as [_ Ha'].
    destruct (IH a' Ha Ha' Hrest) as [-> ->]. done.
Qed.

(** X18: the name multer stores a file under determines the time, the
    random number and the original name it was made from: two uploads get
    the same stored name only when all three coincide. *)
Theorem multer_filename_inj (now now' random random' : N) (original original' : string) :
  multer_filename now random original = multer_filename now' random' original' <->
  now = now' /\ random = random' /\ original = original'.
Proof.
  split; [|by intros (-> & -> & ->)].
  unfold multer_filename. intros H.
  apply split_at_dash in H as [Hn H]; [|apply pretty_N_no_dash..].
  apply split_at_dash in H as [Hr H]; [|apply pretty_N_no_dash..].
  by apply (inj pretty) in Hn, Hr.
Qed.

(** ** Skill form and [POST /api/skills] *)

Lemma parse_type_text (t : SkillType) : parse_type (Some (JStr (type_text t))) = Some t.
Proof. by destruct t. Qed.

Lemma parse_proficiency_text (p : Proficiency) :
  parse_proficiency (Some (JStr (proficiency_text p))) = Some p.
Proof. by destruct p. Qed.

Lemma skillFormSchema_parse_name body f :
  skillFormSchema_parse body = Some f -> 2 <= String.length (sf_name f).
Proof.
  unfold skillFormSchema_parse. destruct body as [[| | | | |fields]|]; try done.
  destruct (parse_type _) as [t|]; [|done].
  destruct (parse_name (assoc_get "name" fields)) as [n|] eqn:Hn; [|done].
  destruct (parse_proficiency _) as [p|]; [|done].
  destruct (parse_description _) as [d|]; [|done].
  intros [= <-]. cbn. unfold parse_name in Hn.
  destruct (assoc_get "name" fields) as [[| | |s| |]|]; try done.
  destruct (2 <=? String.length s)%nat eqn:Hlen; [|done].
  injection Hn as <-. by apply Nat.leb_le.
Qed.

Lemma skill_form_fields t n p d :
  let fields :=
    ([("type", JStr (type_text t)); ("name", JStr n);
      ("proficiency", JStr (proficiency_text p))]
     ++ match d with
        | Some d => [("description", JStr d)]
        | None => []
        end)%list in
  assoc_get "type" fields = Some (JStr (type_text t)) /\
  assoc_get "name" fields = Some (JStr n) /\
  assoc_get "proficiency" fields = Some (JStr (proficiency_text p)) /\
  assoc_get "description" fields = JStr <$> d.
Proof. by destruct d. Qed.

(** X19: what [skillFormSchema.parse] returns validates again, to the
    same data: the object it builds has a [type] and a [proficiency] of the
    two lists, a [name] of at least two characters and a [description] only
    if one was given. *)
Theorem skill_form_parse_stable (body : jsval) (f : SkillForm) :
  skillFormSchema_parse body = Some f ->
  skillFormSchema_parse (Some (skill_form_json f)) = Some f /\
  2 <= String.length (sf_name f).
Proof.
  intros Hparse. pose proof (skillFormSchema_parse_name body f Hparse) as Hlen.
  split; [|done]. destruct f as [t n p d]. cbn [sf_name] in Hlen.
  unfold skillFormSchema_parse, skill_form_json.
  cbn [sf_type sf_name sf_proficiency sf_description].
  destruct (skill_form_fields t n p d) as (-> & -> & -> & ->).
  rewrite parse_type_text, parse_proficiency_text.
  unfold parse_name. apply Nat.leb_le in Hlen. rewrite Hlen.
  by destruct d.
Qed.

Lemma assoc_get_insert_other name k v (pre post : list (string * json)) :
  name ≠ k ->
  assoc_get name (pre ++ (k, v) :: post) = assoc_get name (pre ++ post).
Proof.
  intros Hne. induction pre as [|[k' v'] pre IH]; cbn.
  - by rewrite bool_decide_eq_false_2.
  - by rewrite IH.
Qed.

(** X20: a key the schema does not name has no part in the validation:
    with or without it, wherever it stands in the body, the outcome is the
    same. *)
Theorem skill_form_ignores_unknown_keys
    (k : string) (v : json) (pre post : list (string * json)) :
  k ∉ ["type"; "name"; "proficiency"; "description"] ->
  skillFormSchema_parse (Some (JObj (pre ++ (k, v) :: post)))
  = skillFormSchema_parse (Some (JObj (pre ++ post))).
Proof.
  intros Hk. unfold skillFormSchema_parse.
  rewrite !(assoc_get_insert_other _ k v); [done|..];
    intros <-; apply Hk; by repeat constructor.
Qed.

Lemma post_skills_finish_calls createUserSkill user f skill calls :
  sk_calls (post_skills_finish createUserSkill user f skill calls)
  = (calls ++ [OpCreateUserSkill (user_skill_insert user skill f)])%list /\
  (sk_status (post_skills_finish createUserSkill user f skill calls) = 201 <->
   exists row, createUserSkill (user_skill_insert user skill f) = Resolves row) /\
  (sk_status (post_skills_finish createUserSkill user f skill calls) = 201 \/
   sk_status (post_skills_finish createUserSkill user f skill calls) = 500).
Proof.
  unfold post_skills_finish.
  destruct (createUserSkill _) as [e|row]; cbn.
  - split; [done|]. split; [|by right]. split; [done|by intros [? [=]]].
  - split; [done|]. split; [|by left]. split; [by eauto|done].
Qed.

(** X21: validation comes first, and a skill is created only when none
    has the name.  A body the schema rejects is answered 400 without a
    call of the store, and only such a body is answered 400.  [createSkill]
    is called only after [getSkillByName] resolved to nothing for the
    validated name, and then with that name and the category "Teaching"
    for [teach], "Learning" for [learn]. *)
Theorem post_skills_store_discipline
    (getSkillByName : string -> StoreCall (option Skill))
    (createSkill : InsertSkill -> StoreCall Skill)
    (createUserSkill : InsertUserSkill -> StoreCall json)
    (user : ReqUser) (body : jsval) :
  let out := post_skills getSkillByName createSkill createUserSkill user body in
  (sk_status out = 400 <-> skillFormSchema_parse body = None) /\
  (skillFormSchema_parse body = None -> sk_calls out = []) /\
  (forall f, skillFormSchema_parse body = Some f ->
     sk_calls out !! 0 = Some (OpGetSkillByName (sf_name f))) /\
  (forall ins, OpCreateSkill ins ∈ sk_calls out ->
     exists f,
       skillFormSchema_parse body = Some f /\
       getSkillByName (sf_name f) = Resolves None /\
       is_name ins = sf_name f /\
       is_category ins = (match sf_type f with
                          | teach => "Teaching" | learn => "Learning" end)) /\
  (forall f skill, skillFormSchema_parse body = Some f ->
     getSkillByName (sf_name f) = Resolves (Some skill) ->
     forall ins, OpCreateSkill ins ∉ sk_calls out).
Proof.
  cbv zeta. unfold post_skills.
  destruct (skillFormSchema_parse body) as [f|] eqn:Hparse.
  2:{ cbn. split; [done|]. split; [done|]. split; [done|].
      split; [|done]. intros ins H. by apply elem_of_nil in H. }
  destruct (getSkillByName (sf_name f)) as [e|[skill|]] eqn:Hget.
  - cbn. split; [done|]. split; [done|].
    split; [by intros ? [= <-]|]. split.
    + intros ins H. apply list_elem_of_singleton in H. done.
    + intros ? ? [= <-] ?. congruence.
  - destruct (post_skills_finish_calls createUserSkill user f skill
                [OpGetSkillByName (sf_name f)]) as (Hcalls & _ & Hstatus).
    rewrite Hcalls. split; [split; [intros H; lia|done]|].
    split; [done|]. split; [by intros ? [= <-]|]. split.
    + intros ins H. apply elem_of_cons in H as [H|H]; [done|].
      apply list_elem_of_singleton in H. done.
    + intros ? ? _ _ ins H. apply elem_of_cons in H as [H|H]; [done|].
      apply list_elem_of_singleton in H. done.
  - destruct (createSkill (skill_insert f)) as [e|skill] eqn:Hcreate.
    + cbn. split; [done|]. split; [done|].
      split; [by intros ? [= <-]|]. split.
      * intros ins H. apply elem_of_cons in H as [H|H]; [done|].
        apply list_elem_of_singleton in H. injection H as ->.
        exists f. done.
      * intros ? ? [= <-] ?. congruence.
    + destruct (post_skills_finish_calls createUserSkill user f skill
                  [OpGetSkillByName (sf_name f); OpCreateSkill (skill_insert f)])
        as (Hcalls & _ & Hstatus).
      rewrite Hcalls. split; [split; [intros H; lia|done]|].
      split; [done|]. split; [by intros ? [= <-]|]. split.
      * intros ins H. apply elem_of_cons in H as [H|H]; [done|].
        apply elem_of_cons in H as [H|H].
        -- injection H as ->. exists f. done.
        -- apply list_elem_of_singleton in H. done.
      * intros ? ? [= <-] ?. congruence.
Qed.

(** X22: the user skill.  The handler answers 201 exactly when
    [createUserSkill] was called and resolved, and then with the row the
    store returned.  Whenever [createUserSkill] is called, its argument
    carries the id of the skill the store found under the validated name
    or, when there was none, of the skill just created, the user id of the
    request, the validated [type] and [proficiency], and the description,
    the empty text standing for an absent one. *)
Theorem post_skills_user_skill
    (getSkillByName : string -> StoreCall (option Skill))
    (createSkill : InsertSkill -> StoreCall Skill)
    (createUserSkill : InsertUserSkill -> StoreCall json)
    (user : ReqUser) (body : jsval) :
  let out := post_skills getSkillByName createSkill createUserSkill user body in
  (forall ins, OpCreateUserSkill ins ∈ sk_calls out ->
     exists f skill,
       skillFormSchema_parse body = Some f /\
       (getSkillByName (sf_name f) = Resolves (Some skill) \/
        getSkillByName (sf_name f) = Resolves None /\
        createSkill (skill_insert f) = Resolves skill) /\
       ius_skillId ins = skill_id skill /\ ius_userId ins = ru_id user /\
       ius_type ins = sf_type f /\ ius_proficiency ins = sf_proficiency f /\
       ius_description ins = default "" (sf_description f)) /\
  (sk_status out = 201 <->
   exists ins row,
     OpCreateUserSkill ins ∈ sk_calls out /\
     createUserSkill ins = Resolves row /\ sk_body out = SkillRow row).
Proof.
  cbv zeta. unfold post_skills.
  destruct (skillFormSchema_parse body) as [f|] eqn:Hparse.
  2:{ cbn. split.
      - intros ins H. by apply elem_of_nil in H.
      - split; [done|]. intros (? & ? & H & _). by apply elem_of_nil in H. }
  assert (Hfinish : forall skill calls,
    (forall ins, OpCreateUserSkill ins ∉ calls) ->
    getSkillByName (sf_name f) = Resolves (Some skill) \/
    getSkillByName (sf_name f) = Resolves None /\
    createSkill (skill_insert f) = Resolves skill ->
    let out := post_skills_finish createUserSkill user f skill calls in
    (forall ins, OpCreateUserSkill ins ∈ sk_calls out ->
       exists f0 skill0,
         Some f = Some f0 /\
         (getSkillByName (sf_name f0) = Resolves (Some skill0) \/
          getSkillByName (sf_name f0) = Resolves None /\
          createSkill (skill_insert f0) = Resolves skill0) /\
         ius_skillId ins = skill_id skill0 /\ ius_userId ins = ru_id user /\
         ius_type ins = sf_type f0 /\ ius_proficiency ins = sf_proficiency f0 /\
         ius_description ins = default "" (sf_description f0)) /\
    (sk_status out = 201 <->
     exists ins row,
       OpCreateUserSkill ins ∈ sk_calls out /\
       createUserSkill ins = Resolves row /\ sk_body out = SkillRow row)).
  { intros skill calls Hnone Hskill. cbv zeta.
    assert (Hin : forall ins,
      OpCreateUserSkill ins
        ∈ (calls ++ [OpCreateUserSkill (user_skill_insert user skill f)])%list ->
      ins = user_skill_insert user skill f).
    { intros ins H. apply elem_of_app in H as [H|H]; [by apply Hnone in H|].
      apply list_elem_of_singleton in H. by injection H. }
    unfold post_skills_finish.
    destruct (createUserSkill (user_skill_insert user skill f)) as [e|row] eqn:Hc;
      cbn.
    - split.
      + intros ins H. apply Hin in H as ->. by exists f, skill.
      + split; [done|]. intros (ins & row & H & Hr & _).
        apply Hin in H as ->. congruence.
    - split.
      + intros ins H. apply Hin in H as ->. by exists f, skill.
      + split; [|done]. intros _.
        exists (user_skill_insert user skill f), row.
        split; [|done]. apply elem_of_app. right. by left. }
  destruct (getSkillByName (sf_name f)) as [e|[skill|]] eqn:Hget.
  - cbn. split.
    + intros ins H. apply list_elem_of_singleton in H. done.
    + split; [done|]. intros (? & ? & H & _).
      apply list_elem_of_singleton in H. done.
  - apply Hfinish; [|by left].
    intros ins H. apply list_elem_of_singleton in H. done.
  - destruct (createSkill (skill_insert f)) as [e|skill] eqn:Hcreate.
    + cbn. split.
      * intros ins H. apply elem_of_cons in H as [H|H]; [done|].
        apply list_elem_of_singleton in H. done.
      * split; [done|]. intros (? & ? & H & _).
        apply elem_of_cons in H as [H|H]; [done|].
        apply list_elem_of_singleton in H. done.
    + apply Hfinish; [|by right].
      intros ins H. apply elem_of_cons in H as [H|H]; [done|].
      apply list_elem_of_singleton in H. done.
Qed.

(** ** The current user *)

Lemma without_password_get (fields : list (string * json)) (k : string) :
  assoc_get k (without_password fields)
  = if bool_decide (k = "password") then None else assoc_get k fields.
Proof.
  induction fields as [|[k' v] fields IH]; cbn.
  - by case_bool_decide.
  - destruct (decide (k' = "password")) as [->|Hk'].
    + rewrite (bool_decide_eq_true_2 ("password" = "password")) by done.
      rewrite IH. by case_bool_decide.
    + rewrite (bool_decide_eq_false_2 (k' = "password")) by done. cbn.
      rewrite IH. destruct (decide (k = k')) as [->|Hne].
      * rewrite (bool_decide_eq_true_2 (k' = k')) by done.
        by rewrite bool_decide_eq_false_2.
      * rewrite (bool_decide_eq_false_2 (k = k')) by done. done.
Qed.

(** X23: neither [GET] nor [PATCH /api/users/current] sends a password:
    the object of a 200 answer has no [password] key and has every other
    key of the user the store returned, with its value; without a user the
    answer is 404, and 500 when the store fails. *)
Theorem current_user_without_password
    (getUserById : option nat -> StoreCall (option (list (string * json))))
    (updateUser : option nat -> jsval -> StoreCall (option (list (string * json))))
    (user : ReqUser) (body : jsval) (status : nat) (answer : UserBody) :
  get_current_user getUserById user = (status, answer) \/
  patch_current_user updateUser user body = (status, answer) ->
  exists found,
    (getUserById (ru_id user) = found \/ updateUser (ru_id user) body = found) /\
    match found with
    | Rejects _ => status = 500 /\ exists m, answer = UserMessage m
    | Resolves None => status = 404 /\ answer = UserMessage "User not found"
    | Resolves (Some row) =>
        status = 200 /\
        exists fields,
          answer = UserFields fields /\
          assoc_get "password" fields = None /\
          forall k, k ≠ "password" -> assoc_get k fields = assoc_get k row
    end.
Proof.
  unfold get_current_user, patch_current_user, answer_user.
  intros [H|H].
  - exists (getUserById (ru_id user)). split; [by left|].
    destruct (getUserById (ru_id user)) as [e|[row|]]; injection H as <- <-.
    + by eauto.
    + split; [done|]. eexists. split; [done|].
      rewrite !without_password_get. split; [done|].
      intros k Hk. by rewrite without_password_get, bool_decide_eq_false_2.
    + done.
  - exists (updateUser (ru_id user) body). split; [by right|].
    destruct (updateUser (ru_id user) body) as [e|[row|]]; injection H as <- <-.
    + by eauto.
    + split; [done|]. eexists. split; [done|].
      rewrite !without_password_get. split; [done|].
      intros k Hk. by rewrite without_password_get, bool_decide_eq_false_2.
    + done.
Qed.

(** ** Real-time channel: the clock *)

(** X24: the clock of a broadcast when no [send] raises.  For an event
    whose session id can be used as a property key, a message event costs
    one reading of the clock per recipient, and the recipients get
    consecutive readings in the order the loop visits them: the frame of
    the [i]-th recipient carries reading number [date_calls + i], the
    sender's identity and the event's content.  For an event whose session
    id cannot be used as a key, the clock is not read at all and no outbox
    changes: the conversion throws before [new Date()] is reached. *)
Theorem broadcast_timestamps
    (sessions : gmap string Session) (clock : nat -> string) (ws : nat)
    (text : string) (fields : list (string * json)) (st : WsState) :
  well_formed_message (Some (JObj fields)) = true ->
  NoDup (clients st) ->
  (forall c, c ∈ clients st -> c ≠ ws -> c ∉ send_throws st) ->
  let st' := snd (on_message sessions clock ws text (Some (JObj fields)) st) in
  let sid := assoc_get "sessionId" fields in
  (usable_session_id sid = true ->
   date_calls st' = date_calls st + length (recipients ws (clients st)) /\
   exists senderId senderName,
     sender_of sessions sid = inr senderId /\
     sender_name_of sessions sid = inr senderName /\
     forall i c, recipients ws (clients st) !! i = Some c ->
       frames_of st' c
       = (frames_of st c
          ++ [MessageFrame senderId senderName (assoc_get "content" fields)
                           (clock (date_calls st + i))])%list) /\
  (usable_session_id sid = false ->
   date_calls st' = date_calls st /\ outbox st' = outbox st).
Proof.
  intros Hwf Hnd Hok st' sid. subst st' sid.
  destruct (on_message_loop sessions clock ws text fields st Hwf) as [Hbox Hdate].
  set (st0 := snd (console_write ("Received message: " ++ text) st)) in *.
  split; intros Hu.
  - destruct (frame_members_usable sessions fields Hu)
      as (senderId & senderName & Hs1 & Hs2 & Hm).
    destruct (forEach_delivers sessions clock ws (JObj fields) _ (clients st) st0
                Hm Hnd Hok) as (st1 & Hrun & _ & _ & Hd & Hin & _).
    rewrite Hrun in Hbox, Hdate. cbn [snd] in Hbox, Hdate.
    split; [by rewrite Hdate, Hd|].
    exists senderId, senderName. split; [done|]. split; [done|].
    intros i c Hc. unfold frames_of at 1. rewrite Hbox.
    exact (Hin i c Hc).
  - destruct (frame_members_unusable sessions fields Hu) as [e Hm].
    rewrite (forEach_no_frame sessions clock ws (JObj fields) e (clients st) st0 Hm)
      in Hbox, Hdate.
    by rewrite Hbox, Hdate.
Qed.

(** ** The further properties at concrete inputs *)

Lemma issued_session_authenticates_witness :
  authenticate
    (snd (login example_getUserByUsername example_session_text
                example_login_body ∅))
    (Some "4fzyo82mvyr")
  = Next {| ru_id := Some 7; ru_username := Some "bob" |}.
Proof.
  refine (proj1 (issued_session_authenticates
                   (fun _ => None) example_getUserByUsername
                   (fun _ => Rejects "unused")
                   example_session_text example_login_body ∅
                   7 "bob" "4fzyo82mvyr" _) _).
  - discriminate.
  - reflexivity.
Defined.

Lemma other_sessions_survive_witness :
  let sessions : gmap string Session := {[ "k3x9" := mkSession 3 "ann" ]} in
  authenticate (snd (login example_getUserByUsername example_session_text
                           example_login_body sessions)) (Some "k3x9")
  = authenticate sessions (Some "k3x9") /\
  authenticate (snd (register (fun _ => None) example_getUserByUsername
                              (fun _ => Rejects "unused") example_session_text
                              example_login_body sessions)) (Some "k3x9")
  = authenticate sessions (Some "k3x9") /\
  authenticate (snd (auto_login example_users example_session_text None sessions))
               (Some "k3x9")
  = authenticate sessions (Some "k3x9").
Proof.
  apply (other_sessions_survive (fun _ => None) example_getUserByUsername
           (fun _ => Rejects "unused") example_users None
           example_session_text example_login_body
           {[ "k3x9" := mkSession 3 "ann" ]} "k3x9").
  discriminate.
Defined.

Lemma on_message_at_most_one_frame_witness :
  let st := example_channel ∅ in
  frames_of (snd (on_message ∅ example_clock 1 "{...}" (Some example_message) st)) 2
  = frames_of st 2 \/
  exists data timestamp f,
    Some example_message = Some data /\
    well_formed_message (Some example_message) = true /\
    broadcast_frame ∅ data timestamp = inr f /\
    frames_of (snd (on_message ∅ example_clock 1 "{...}" (Some example_message) st)) 2
    = (frames_of st 2 ++ [f])%list.
Proof.
  apply (on_message_at_most_one_frame ∅ example_clock 1 "{...}"
           (Some example_message) (example_channel ∅) 2).
  by_compute.
Defined.

Lemma broadcast_timestamps_witness :
  (let st := example_channel ∅ in
   let st' := snd (on_message ∅ (fun n => pretty n) 2 "{...}"
                              (Some example_message) st) in
   date_calls st' = date_calls st + length (recipients 2 (clients st)) /\
   forall i c, recipients 2 (clients st) !! i = Some c ->
     frames_of st' c
     = (frames_of st c
        ++ [MessageFrame SenderSystem (Some "System") (Some (JStr "hi"))
                         (pretty (date_calls st + i))])%list) /\
  (let st := example_channel ∅ in
   let st' := snd (on_message ∅ (fun n => pretty n) 2 "{...}"
                              (Some example_unprintable_message) st) in
   date_calls st' = date_calls st /\ outbox st' = outbox st).
Proof.
  split.
  - destruct (broadcast_timestamps ∅ (fun n => pretty n) 2 "{...}"
                [("type", JStr "message"); ("content", JStr "hi")]
                (example_channel ∅)) as [Husable _].
    + reflexivity.
    + by_compute.
    + intros c _ _. apply not_elem_of_empty.
    + destruct Husable as (Hdate & senderId & senderName & Hs1 & Hs2 & Hfr);
        [reflexivity|].
      injection Hs1 as <-. injection Hs2 as <-. split; [exact Hdate | exact Hfr].
  - destruct (broadcast_timestamps ∅ (fun n => pretty n) 2 "{...}"
                [("type", JStr "message");
                 ("sessionId", JObj [("toString", JNum "1")]);
                 ("content", JStr "hi")]
                (example_channel ∅)) as [_ Hunusable].
    + reflexivity.
    + by_compute.
    + intros c _ _. apply not_elem_of_empty.
    + apply Hunusable. reflexivity.
Defined.

Lemma example_stored_world_wf : storage_wf (storage example_stored_world).
Proof.
  intros id content Hl. cbn in Hl.
  apply lookup_singleton_Some in Hl as [<- <-]. cbn. split; [done|lia].
Defined.

(** An upload into a store that already holds record 0: the record is
    still there, untouched, and the new record has taken id 1. *)
Lemma upload_keeps_other_records_witness :
  let w' := handle_upload example_users example_session_text ∅
              example_pdf_request (SummaryText "S") 0 example_stored_world in
  contents (storage w') !! 0 = Some example_stored_record /\
  (forall id, id ≠ 1 ->
     contents (storage w') !! id = contents (storage example_stored_world) !! id) /\
  1 <= contentIdCounter (storage w') <= 2 /\
  storage_wf (storage w').
Proof.
  destruct (upload_keeps_other_records example_users example_session_text ∅
              example_pdf_request (SummaryText "S") 0 example_stored_world
              example_stored_world_wf) as (Hkept & Hother & Hcount & Hwf).
  intros w'. split; [|done].
  apply (Hkept 0 example_stored_record). apply lookup_singleton_eq.
Defined.

Lemma upload_keeps_metadata_witness :
  let w' := handle_upload example_users example_session_text ∅
              example_pdf_request (SummaryError "timeout") 0 example_world in
  exists c',
    contents (storage w') !! 0 = Some c' /\
    c_id c' = 0 /\ c_userId c' = Some 7 /\
    c_filename c' = "a.pdf" /\
    c_filePath c' = "/uploads/1714557600000-42-a.pdf" /\
    c_fileSize c' = 5%N /\ c_type c' = fileType_of example_pdf /\
    file_part example_pdf_request = Some example_pdf.
Proof.
  apply (upload_keeps_metadata example_users example_session_text ∅
           example_pdf_request example_user example_pdf
           (SummaryError "timeout") 0 example_world).
  exact example_pdf_accepted.
Defined.

Lemma each_request_answered_once_witness :
  count_events (is_response 1) (trace (world example_interleaving)) <= 1 /\
  (forall t, tasks example_interleaving !! 1 = Some t ->
     (count_events (is_response 1) (trace (world example_interleaving)) = 1 <->
      exists created, t_pc t = Finished created)) /\
  (tasks example_interleaving !! 1 = None ->
   count_events (is_response 1) (trace (world example_interleaving)) = 0).
Proof.
  exact (each_request_answered_once example_interleaving 1
           example_interleaving_reachable).
Defined.

Lemma summarizer_called_at_most_once_witness :
  count_events (is_summarize 0) (trace (world example_interleaving)) <= 1 /\
  count_events (is_summarize 1) (trace (world example_interleaving)) <= 1.
Proof.
  split.
  - exact (proj1 (summarizer_called_at_most_once example_interleaving 0
                    example_interleaving_reachable)).
  - exact (proj1 (summarizer_called_at_most_once example_interleaving 1
                    example_interleaving_reachable)).
Defined.

Lemma skill_form_parse_stable_witness :
  let f := {| sf_type := teach; sf_name := "Rust"; sf_proficiency := Advanced;
              sf_description := None |} in
  skillFormSchema_parse (Some (skill_form_json f)) = Some f /\
  2 <= String.length (sf_name f).
Proof.
  apply (skill_form_parse_stable example_skill_body). reflexivity.
Defined.

Lemma skill_form_ignores_unknown_keys_witness :
  skillFormSchema_parse
    (Some (JObj ([("type", JStr "teach")]
                 ++ ("admin", JBool true)
                 :: [("name", JStr "Rust"); ("proficiency", JStr "Advanced")])))
  = skillFormSchema_parse
      (Some (JObj ([("type", JStr "teach")]
                   ++ [("name", JStr "Rust"); ("proficiency", JStr "Advanced")]))).
Proof.
  apply (skill_form_ignores_unknown_keys "admin" (JBool true)
           [("type", JStr "teach")]
           [("name", JStr "Rust"); ("proficiency", JStr "Advanced")]).
  by_compute.
Defined.

Lemma current_user_without_password_witness :
  exists found,
    (Resolves (Some example_user_row) = found \/
     Rejects "unused" = found) /\
    match found with
    | Rejects _ => 200 = 500 /\ exists m,
        UserFields [("id", JNum "7"); ("username", JStr "bob")] = UserMessage m
    | Resolves None =>
        200 = 404 /\
        UserFields [("id", JNum "7"); ("username", JStr "bob")]
        = UserMessage "User not found"
    | Resolves (Some row) =>
        200 = 200 /\
        exists fields,
          UserFields [("id", JNum "7"); ("username", JStr "bob")]
          = UserFields fields /\
          assoc_get "password" fields = None /\
          forall k, k ≠ "password" -> assoc_get k fields = assoc_get k row
    end.
Proof.
  apply (current_user_without_password
           (fun _ => Resolves (Some example_user_row))
           (fun _ _ => Rejects "unused")
           example_user None 200
           (UserFields [("id", JNum "7"); ("username", JStr "bob")])).
  left. reflexivity.
Defined.
